(** * BuildResidualDecoder: construction and forward pass

    A shallow embedding of the class [BuildResidualDecoder] of
    [Modules/Utils/BuildResidualDecoder.py].

    The Python class assembles a [torch.nn.Sequential] out of freshly
    constructed [torch.nn] modules and one shared activation object.  The
    embedding keeps three things the code depends on:

    - Python objects live in a store and are referred to by address, so
      that "the same activation instance" is a statement about addresses;
    - [__init__] is written in a state-and-exception monad over that store,
      statement by statement;
    - tensors are followed through [forward] by their shape only (the
      numbers inside are floating point and play no role in what is
      proved here).

    Python integers are [Z].  The two places where the code leaves exact
    integer arithmetic are written out: [np.prod] returns a 64-bit integer
    and [/] returns a binary64 float. *)

From stdpp Require Import base numbers list strings.

Local Open Scope Z_scope.

(** ** Exceptions and results *)

Inductive exn :=
| IndexError
| ZeroDivisionError
| OverflowError
| TypeError
| ValueError
| RuntimeError.

Inductive result (A : Type) :=
| OK (a : A)
| Raise (e : exn).

Arguments OK {A} a.
Arguments Raise {A} e.

Global Instance result_ret : MRet result := @OK.

Global Instance result_bind : MBind result :=
  λ A B f m, match m with OK a => f a | Raise e => Raise e end.

Global Instance result_fmap : FMap result :=
  λ A B f m, match m with OK a => OK (f a) | Raise e => Raise e end.

Global Instance exn_eq_dec : EqDecision exn.
Proof. solve_decision. Defined.

(** ** Python and NumPy arithmetic *)

(** [seq[i]] for a non-negative literal index. *)
Definition getitem {A} (l : list A) (i : nat) : result A :=
  match l !! i with
  | Some x => OK x
  | None => Raise IndexError
  end.

(** Two's-complement reduction to a signed 64-bit integer. *)
Definition wrap64 (z : Z) : Z := (z + 2 ^ 63) `mod` 2 ^ 64 - 2 ^ 63.

Definition fits_int64 (z : Z) : bool := (- 2 ^ 63 <=? z) && (z <? 2 ^ 63).

(** [np.prod] over a sequence of Python integers.  When every entry is
    machine-size the product is accumulated in [int64] and wraps
    silently; with an entry beyond [int64] the array holds Python objects
    and the product is the exact integer. *)
Definition np_prod (l : list Z) : Z :=
  if forallb fits_int64 l then wrap64 (foldr Z.mul 1 l)
  else foldr Z.mul 1 l.

(** A finite binary64 value, held exactly as [fmant * 2 ^ fexp]. *)
Record float := { fmant : Z; fexp : Z }.

(** Nearest integer to [a / b] for [0 <= a], [0 < b], ties to even. *)
Definition round_half_even (a b : Z) : Z :=
  let q := a / b in
  let r := a `mod` b in
  if 2 * r <? b then q
  else if b <? 2 * r then q + 1
  else if Z.even q then q else q + 1.

(** The fraction [a / (b * 2 ^ k)] with integer numerator and denominator. *)
Definition scale (a b k : Z) : Z * Z :=
  if 0 <=? k then (a, b * 2 ^ k) else (a * 2 ^ (- k), b).

(** [floor (log2 (a / b))] for positive [a] and [b]. *)
Definition floor_log2_ratio (a b : Z) : Z :=
  let d := Z.log2 a - Z.log2 b in
  let '(n, m) := scale a b d in
  if m <=? n then d else d - 1.

(** Correctly rounded quotient of two positive integers: 53 significant
    bits, exponent no smaller than that of the subnormals, overflow past
    the largest finite double. *)
Definition truediv_pos (a b : Z) : result float :=
  let e := Z.max (floor_log2_ratio a b - 52) (-1074) in
  let '(n, m) := scale a b e in
  let mant := round_half_even n m in
  if 2 ^ 1024 <=? mant * 2 ^ e then Raise OverflowError
  else OK {| fmant := mant; fexp := e |}.

(** [a / b] on two Python integers (true division). *)
Definition py_truediv (a b : Z) : result float :=
  if b =? 0 then Raise ZeroDivisionError
  else if a =? 0 then OK {| fmant := 0; fexp := 0 |}
  else
    f ← truediv_pos (Z.abs a) (Z.abs b);
    OK {| fmant := Z.sgn a * Z.sgn b * fmant f; fexp := fexp f |}.

(** [int(x)] on a float: truncation toward zero. *)
Definition py_int (f : float) : Z :=
  if 0 <=? fexp f then fmant f * 2 ^ fexp f
  else fmant f `quot` 2 ^ (- fexp f).

(** ** The object store *)

(** Addresses of module objects. *)
Definition ref := nat.

(** The [torch.nn] modules the decoder builds, with the arguments each
    constructor is called with.  [Elementwise] stands for any activation
    module other than [nn.ReLU] that a caller instantiated and passed in.
    A residual block keeps a reference to the activation object it was
    given. *)
Inductive layer :=
| Linear (in_features out_features : Z) (bias : bool)
| Conv2d (in_channels out_channels kernel_size stride padding : Z)
| BatchNorm2d (num_features : Z)
| ReLU
| Elementwise (name : string)
| ResidualBlock (features : Z) (activation : ref)
    (use_batchnorm use_preactivation : bool).

Global Instance layer_eq_dec : EqDecision layer.
Proof. solve_decision. Defined.

(** Objects are allocated at increasing addresses and never freed. *)
Definition store := list layer.

(** Statements that may allocate and may raise. *)
Definition Py (A : Type) : Type := store → result (A * store).

Global Instance Py_ret : MRet Py := λ A a h, OK (a, h).

Global Instance Py_bind : MBind Py :=
  λ A B f m h,
    match m h with
    | OK (a, h') => f a h'
    | Raise e => Raise e
    end.

(** An expression that only raises or returns. *)
Definition lift {A} (r : result A) : Py A :=
  λ h, match r with OK a => OK (a, h) | Raise e => Raise e end.

(** A dimension [torch.empty] accepts: not negative, and an [int64]. *)
Definition size_ok (z : Z) : bool := (0 <=? z) && (z <? 2 ^ 63).

(** The dimensions of the parameter tensors a constructor creates. *)
Definition sizes_of (l : layer) : list Z :=
  match l with
  | Linear i o _ => [o; i]
  | Conv2d i o k _ _ => [o; i; k; k]
  | BatchNorm2d n => [n]
  | ReLU | Elementwise _ => []
  | ResidualBlock _ _ _ _ => []
  end.

(** The parameter tensors of [nn.Linear], [nn.Conv2d] and [nn.BatchNorm2d]
    are created with [torch.empty].  A zero dimension is accepted (the
    initialisation of an empty tensor is skipped with a warning).  Memory
    exhaustion is outside the model. *)
Definition ctor_ok (l : layer) : bool :=
  match l with
  | Linear i o _ => size_ok i && size_ok o
  | Conv2d i o k _ _ => size_ok i && size_ok o && size_ok k
  | BatchNorm2d n => size_ok n
  | ReLU | Elementwise _ => true
  | ResidualBlock _ _ _ _ => true
  end.

(** What [torch.empty] raises otherwise: [TypeError] ("Overflow when
    unpacking long") while reading a dimension that is no [int64], and
    [RuntimeError] on a negative dimension once all have been read. *)
Definition ctor_exn (l : layer) : exn :=
  if forallb fits_int64 (sizes_of l) then RuntimeError else TypeError.

(** Calling a constructor: a new object at the next free address. *)
Definition new (l : layer) : Py ref :=
  λ h, if ctor_ok l then OK (length h, h ++ [l]) else Raise (ctor_exn l).

(** ** BuildResidualDecoder *)

(** The attributes of a decoder instance once [__init__] has returned.
    [model] lists the children of the [nn.Sequential], in order; the
    container object itself, which has no parameters of its own, is not
    kept in the store, and neither is what a residual block builds
    inside itself. *)
Record BuildResidualDecoder := {
  latent_dim : Z;
  init_shape : list Z;
  input_channels : Z;
  layers : list Z;
  num_res_blocks : Z;
  activation : ref;
  use_batchnorm : bool;
  use_preactivations : bool;
  init_linear : ref;
  model : list ref
}.

Section Init.

Variable latent_dim' : Z.
Variable init_shape' : list Z.
Variable layers' : list Z.
Variable num_res_blocks' : Z.
Variable input_channels' : Z.
Variable activation' : ref.
Variable use_batchnorm' : bool.
Variable use_preactivations' : bool.

(** [for j in range(self.num_res_blocks): operations.append(ResidualBlock(...))] *)
Fixpoint res_blocks (n : nat) (layer : Z) (operations : list ref)
  : Py (list ref) :=
  match n with
  | O => mret operations
  | S n' =>
      r ← new (ResidualBlock layer activation' use_batchnorm'
                 use_preactivations');
      res_blocks n' layer (operations ++ [r])
  end.

(** One pass of the body of [for i, layer in enumerate(layers)], on the
    pair of [self.input_channels] and [operations]. *)
Definition block (layer : Z) (st : Z * list ref) : Py (Z * list ref) :=
  let '(input_channels, operations) := st in
  down ← new (Conv2d input_channels layer 2 2 0);
  operations ← res_blocks (Z.to_nat num_res_blocks') layer
                 (operations ++ [down]);
  mret (layer, operations).

(** [for i, layer in enumerate(layers): ...] *)
Fixpoint blocks (ls : list Z) (st : Z * list ref) : Py (Z * list ref) :=
  match ls with
  | [] => mret st
  | layer :: rest => st' ← block layer st; blocks rest st'
  end.

(** [if self.use_batchnorm: operations.append(nn.BatchNorm2d(...))] *)
Definition maybe_batchnorm (operations : list ref) : Py (list ref) :=
  if use_batchnorm' then
    width ← lift (getitem layers' 0);
    bn ← new (BatchNorm2d width);
    mret (operations ++ [bn])
  else mret operations.

(** [__init__] from line 47 on, once [self.input_channels] and
    [self.activation] have their first values. *)
Definition init_body : Py BuildResidualDecoder :=
  let input_channels := input_channels' in
  (* first convert the latent vector to initial image *)
  init_linear ← new (Linear latent_dim' (np_prod init_shape') true);
  let operations := [] in
  (* pre-process initial image with conv layers *)
  width ← lift (getitem layers' 0);
  conv ← new (Conv2d input_channels width 3 1 1);
  let operations := operations ++ [conv] in
  operations ← maybe_batchnorm operations;
  let operations := operations ++ [activation'] in
  width_in ← lift (getitem layers' 0);
  width_out ← lift (getitem layers' 0);
  conv ← new (Conv2d width_in width_out 3 1 1);
  let operations := operations ++ [conv] in
  operations ← maybe_batchnorm operations;
  let operations := operations ++ [activation'] in
  input_channels ← lift (getitem layers' 0);
  (* loop over blocks *)
  '(input_channels, operations) ← blocks layers' (input_channels, operations);
  (* output linear layer for latent space *)
  height ← lift (getitem init_shape' 1);
  quotient ← lift (py_truediv height (2 ^ Z.of_nat (length layers')));
  conv ← new (Conv2d input_channels latent_dim' (py_int quotient) 1 0);
  let operations := operations ++ [conv] in
  mret {| latent_dim := latent_dim';
          init_shape := init_shape';
          input_channels := input_channels;
          layers := layers';
          num_res_blocks := num_res_blocks';
          activation := activation';
          use_batchnorm := use_batchnorm';
          use_preactivations := use_preactivations';
          init_linear := init_linear;
          model := operations |}.

End Init.

(** [BuildResidualDecoder(latent_dim, init_shape, layers, num_res_blocks,
    activation, use_batchnorm, use_preactivations)].  [activation] is
    [None] or the address of an object the caller created. *)
Definition __init__ (latent_dim : Z) (init_shape layers : list Z)
    (num_res_blocks : Z) (activation : option ref)
    (use_batchnorm use_preactivations : bool) : Py BuildResidualDecoder :=
  input_channels ← lift (getitem init_shape 0);
  activation ← match activation with
               | Some a => mret a
               | None => new ReLU
               end;
  init_body latent_dim init_shape layers num_res_blocks input_channels
    activation use_batchnorm use_preactivations.

(** ** Shapes through the modules *)

(** A tensor, as far as [forward] is followed here: its [size()]. *)
Definition shape := list Z.

Definition numel (s : shape) : Z := foldr Z.mul 1 s.

(** Output extent of a convolution along one axis (dilation 1), as
    documented for [nn.Conv2d]; [/] is floor division. *)
Definition conv_out (size kernel stride padding : Z) : Z :=
  (size + 2 * padding - (kernel - 1) - 1) / stride + 1.

(** [nn.Conv2d] takes a batched [(N, C, H, W)] or (since torch 1.11) an
    unbatched [(C, H, W)] input whose channel count is [in_channels]; the
    kernel must fit in the padded input, and a convolution with no output
    channel raises. *)
Definition conv2d_forward (cin cout k s p : Z) (x : shape) : result shape :=
  let go (batch_dims : list Z) (c h w : Z) :=
    if (c =? cin) && (0 <? cout) && (0 <? k) && (0 <? s)
       && (k <=? h + 2 * p) && (k <=? w + 2 * p)
    then OK (batch_dims ++ [cout; conv_out h k s p; conv_out w k s p])
    else Raise RuntimeError in
  match x with
  | [c; h; w] => go [] c h w
  | [n; c; h; w] => go [n] c h w
  | _ => Raise RuntimeError
  end.

(** [nn.Linear] acts on the last axis, which must have [in_features]
    entries. *)
Definition linear_forward (i o : Z) (x : shape) : result shape :=
  match last x with
  | Some d => if d =? i then OK (removelast x ++ [o]) else Raise RuntimeError
  | None => Raise RuntimeError
  end.

(** [nn.BatchNorm2d] insists on a four-dimensional input ("expected 4D
    input"); a freshly built module is in training mode and wants more
    than one value per channel. *)
Definition batchnorm2d_forward (num_features : Z) (x : shape) : result shape :=
  match x with
  | [n; c; h; w] =>
      if n * h * w =? 1 then Raise ValueError
      else if c =? num_features then OK x
      else Raise RuntimeError
  | _ => Raise ValueError
  end.

(** Modelled from the spec: [Modules/Layers/ResidualBlock.py] is imported
    by the decoder but is not among the sources; its contract is a forward
    pass "taking and returning a tensor of identical shape", whatever the
    activation and the two flags. *)
Definition residual_block_forward (features : Z) (x : shape) : result shape :=
  OK x.

Definition layer_forward (l : layer) (x : shape) : result shape :=
  match l with
  | Linear i o _ => linear_forward i o x
  | Conv2d i o k s p => conv2d_forward i o k s p x
  | BatchNorm2d n => batchnorm2d_forward n x
  | ReLU | Elementwise _ => OK x
  | ResidualBlock f _ _ _ => residual_block_forward f x
  end.

(** Calling the module object at address [r]. *)
Definition call (h : store) (r : ref) (x : shape) : result shape :=
  match h !! r with
  | Some l => layer_forward l x
  | None => Raise TypeError
  end.

(** [nn.Sequential.forward]: the children in order. *)
Fixpoint sequential (h : store) (children : list ref) (x : shape)
  : result shape :=
  match children with
  | [] => OK x
  | r :: rest => y ← call h r x; sequential h rest y
  end.

(** [Tensor.view] onto a target size: at most one entry may be [-1] and
    is then inferred; the element count must be kept. *)
Definition view (x : shape) (target : list Z) : result shape :=
  if existsb (λ d, d <? -1) target then Raise RuntimeError
  else
    let known := filter (λ d, d ≠ -1) target in
    match (length target - length known)%nat with
    | O => if numel target =? numel x then OK target else Raise RuntimeError
    | 1%nat =>
        if (numel known =? 0) || negb (numel x `mod` numel known =? 0)
        then Raise RuntimeError
        else OK ((λ d, if d =? -1 then numel x / numel known else d) <$> target)
    | _ => Raise RuntimeError
    end.

(** [len(tensor)] *)
Definition len (x : shape) : result Z :=
  match x with
  | d :: _ => OK d
  | [] => Raise TypeError
  end.

(** [BuildResidualDecoder.forward].  The name [batch] is rebound by the
    first statement, so [len(batch)] in the second one measures the
    tensor that was viewed as [init_shape]. *)
Definition forward (h : store) (self : BuildResidualDecoder) (batch : shape)
  : result shape :=
  (* convert latent vector to initial image *)
  projected ← call h (init_linear self) batch;
  batch ← view projected (init_shape self);
  (* run the model and squeeze *)
  out ← sequential h (model self) batch;
  n ← len batch;
  view out [n; -1].

(** The decoder built on store [h0], run on an input of shape [x]. *)
Definition build_and_run (latent_dim : Z) (init_shape layers : list Z)
    (num_res_blocks : Z) (activation : option ref)
    (use_batchnorm use_preactivations : bool) (h0 : store) (x : shape)
  : result shape :=
  '(self, h) ← __init__ latent_dim init_shape layers num_res_blocks
                 activation use_batchnorm use_preactivations h0;
  forward h self x.

(** ** Reading an assembled pipeline *)

(** The module objects behind a list of children. *)
Definition resolve (h : store) (children : list ref) : option (list layer) :=
  mapM (h !!.) children.

Definition is_batchnorm (l : layer) : bool :=
  match l with BatchNorm2d _ => true | _ => false end.

Definition is_conv (l : layer) : bool :=
  match l with Conv2d _ _ _ _ _ => true | _ => false end.

Definition is_residual (l : layer) : bool :=
  match l with ResidualBlock _ _ _ _ => true | _ => false end.

Definition is_activation (l : layer) : bool :=
  match l with ReLU | Elementwise _ => true | _ => false end.

(** A stage as it is built when [use_batchnorm] is off. *)
Definition without_batchnorm (l : layer) : layer :=
  match l with
  | ResidualBlock f a _ p => ResidualBlock f a false p
  | _ => l
  end.

(** A stage as it is built when [use_preactivations] is [p]. *)
Definition with_preactivation (p : bool) (l : layer) : layer :=
  match l with
  | ResidualBlock f a b _ => ResidualBlock f a b p
  | _ => l
  end.

(** The stages of a pipeline run in order, each paired with the shape it
    hands on. *)
Fixpoint run (stages : list layer) (x : shape)
  : result (list (layer * shape)) :=
  match stages with
  | [] => OK []
  | l :: rest =>
      y ← layer_forward l x;
      tl ← run rest y;
      OK ((l, y) :: tl)
  end.

(** The shape a list of stages hands on at its end. *)
Fixpoint through (stages : list layer) (x : shape) : result shape :=
  match stages with
  | [] => OK x
  | l :: rest => y ← layer_forward l x; through rest y
  end.

(** The stages of the decoder a constructor call returned. *)
Definition stages_of (r : result (BuildResidualDecoder * store))
  : option (list layer) :=
  match r with
  | OK (self, h) => resolve h (model self)
  | Raise _ => None
  end.

(** What [__init__] is expected to allocate and to chain up, written
    without the store. *)
Section Assembled.

Variable latent_dim' : Z.
Variable num_res_blocks' : Z.
Variable activation' : ref.
Variable use_batchnorm' : bool.
Variable use_preactivations' : bool.

(** One downsampling stage: the strided convolution, then the residual
    blocks. *)
Definition stage_objects (cin width : Z) : list layer :=
  Conv2d cin width 2 2 0
    :: replicate (Z.to_nat num_res_blocks')
         (ResidualBlock width activation' use_batchnorm' use_preactivations').

Fixpoint body_objects (cin : Z) (ls : list Z) : list layer :=
  match ls with
  | [] => []
  | width :: rest => stage_objects cin width ++ body_objects width rest
  end.

Definition normalisation (width : Z) : list layer :=
  if use_batchnorm' then [BatchNorm2d width] else [].

(** The two preprocessing convolutions with what follows each; [act] is
    the activation module. *)
Definition preprocessing (cin width : Z) (act : layer) : list layer :=
  [Conv2d cin width 3 1 1] ++ normalisation width ++ [act]
    ++ [Conv2d width width 3 1 1] ++ normalisation width ++ [act].

Definition final_conv (cin kernel_size : Z) : layer :=
  Conv2d cin latent_dim' kernel_size 1 0.

Definition pipeline (cin : Z) (ls : list Z) (act : layer) (kernel_size : Z)
  : list layer :=
  preprocessing cin (default 0 (head ls)) act
    ++ body_objects (default 0 (head ls)) ls
    ++ [final_conv (default 0 (last ls)) kernel_size].

(** The objects allocated from [self.init_linear] on, in allocation
    order; the shared activation is not among them. *)
Definition built_objects (init_shape : list Z) (cin : Z) (ls : list Z)
    (kernel_size : Z) : list layer :=
  let width := default 0 (head ls) in
  [Linear latent_dim' (np_prod init_shape) true; Conv2d cin width 3 1 1]
    ++ normalisation width
    ++ [Conv2d width width 3 1 1]
    ++ normalisation width
    ++ body_objects width ls
    ++ [final_conv (default 0 (last ls)) kernel_size].

(** The children of the [nn.Sequential] when [self.init_linear] sits at
    address [p]. *)
Definition built_model (p : nat) (ls : list Z) : list ref :=
  let width := default 0 (head ls) in
  let k := length (normalisation width) in
  [(p + 1)%nat] ++ seq (p + 2)%nat k ++ [activation']
    ++ [(p + (2 + k))%nat] ++ seq (p + (3 + k))%nat k ++ [activation']
    ++ seq (p + (3 + k + k))%nat (S (length (body_objects width ls))).

End Assembled.

(** The channel count a stage starts from: [layers[0]] (the width the
    preprocessing leaves) for the first stage, [layers[i - 1]] after. *)
Definition stage_input (ls : list Z) (i : nat) : option Z :=
  match i with
  | O => head ls
  | S i' => ls !! i'
  end.

(** What line 43 allocates: a fresh [nn.ReLU()] when no activation is
    passed in, and the address [self.activation] is bound to. *)
Definition activation_objects (activation : option ref) : list layer :=
  match activation with Some _ => [] | None => [ReLU] end.

Definition activation_ref (activation : option ref) (h0 : store) : ref :=
  default (length h0) activation.

(** The module [self.activation] refers to once line 43 has run. *)
Definition activation_module (activation : option ref) (h0 : store)
  : option layer :=
  (h0 ++ activation_objects activation) !! activation_ref activation h0.

(** Sizes the data model allows: a positive latent width, a
    (channels, height, width) triple of positive integers whose product
    fits [int64] and whose height fits a float mantissa, and positive
    stage widths. *)
Definition positive_config (latent_dim : Z) (init_shape layers : list Z)
  : bool :=
  (0 <? latent_dim)
  && match init_shape with
     | [c; h; w] =>
         (0 <? c) && (0 <? h) && (h <? 2 ^ 53) && (0 <? w)
         && (c * h * w <? 2 ^ 63)
     | _ => false
     end
  && forallb (λ l, 0 <? l) layers.

(** A configuration all of whose sizes torch can take: as above, with the
    latent width and every stage width an [int64] as well. *)
Definition valid_config (latent_dim : Z) (init_shape layers : list Z) : bool :=
  positive_config latent_dim init_shape layers
  && (latent_dim <? 2 ^ 63)
  && forallb (λ l, l <? 2 ^ 63) layers.

(** * Properties *)

(** ** Arithmetic *)

Example truediv_7_2 : py_int <$> py_truediv 7 2 = OK 3.
Proof. reflexivity. Qed.

(** Past 53 bits the quotient is rounded before [int] sees it. *)
Example truediv_rounds :
  py_int <$> py_truediv (2 * (2 ^ 53 + 1)) 2 = OK (2 ^ 53).
Proof. reflexivity. Qed.

Example truediv_overflows : py_truediv (2 ^ 1024) 1 = Raise OverflowError.
Proof. reflexivity. Qed.

Lemma wrap64_small z : - 2 ^ 63 <= z < 2 ^ 63 → wrap64 z = z.
Proof.
  intros Hz. unfold wrap64.
  rewrite Z.mod_small; lia.
Qed.

Lemma np_prod_3 c h w :
  - 2 ^ 63 <= c * h * w < 2 ^ 63 → np_prod [c; h; w] = c * h * w.
Proof.
  intros Hr. unfold np_prod. cbn [foldr].
  destruct (forallb _ _); [rewrite wrap64_small |]; lia.
Qed.

Lemma round_half_even_exact q b : 0 < b → round_half_even (q * b) b = q.
Proof.
  intros Hb. unfold round_half_even.
  rewrite Z.mod_mul, Z.div_mul by lia.
  destruct (Z.ltb_spec (2 * 0) b); [done | lia].
Qed.

Lemma round_half_even_bounds a b :
  0 < b → a / b <= round_half_even a b <= a / b + 1.
Proof.
  intros Hb. unfold round_half_even.
  repeat case_match; lia.
Qed.

Lemma floor_log2_ratio_pow2 a n :
  0 < a → 0 <= n → floor_log2_ratio a (2 ^ n) = Z.log2 a - n.
Proof.
  intros Ha Hn. unfold floor_log2_ratio, scale.
  rewrite Z.log2_pow2 by done.
  pose proof (Z.log2_spec a Ha) as [Hlo _].
  pose proof (Z.log2_nonneg a) as HL.
  destruct (Z.leb_spec 0 (Z.log2 a - n)) as [Hd | Hd].
  - rewrite <- Z.pow_add_r by lia.
    replace (n + (Z.log2 a - n)) with (Z.log2 a) by lia.
    destruct (Z.leb_spec (2 ^ Z.log2 a) a); [done | lia].
  - destruct (Z.leb_spec (2 ^ n) (a * 2 ^ (- (Z.log2 a - n)))) as [| Hlt]; [done |].
    exfalso.
    assert (2 ^ n = 2 ^ Z.log2 a * 2 ^ (- (Z.log2 a - n))) as Heq.
    { rewrite <- Z.pow_add_r by lia. f_equal. lia. }
    assert (0 < 2 ^ (- (Z.log2 a - n))) by (apply Z.pow_pos_nonneg; lia).
    nia.
Qed.

(** On an integer below [2 ^ 53] divided by a power of two, the float
    quotient is exact (or underflows below one), so [int] of it is the
    floor of the quotient. *)
Lemma py_int_truediv_pow2 a n :
  0 < a < 2 ^ 53 → 0 <= n →
  py_int <$> py_truediv a (2 ^ n) = OK (a / 2 ^ n).
Proof.
  intros [Ha Hlt] Hn.
  assert (0 < 2 ^ n) as Hpn by (apply Z.pow_pos_nonneg; lia).
  assert (0 <= Z.log2 a <= 52) as HL.
  { split; [apply Z.log2_nonneg |].
    enough (Z.log2 a < 53) by lia. by apply Z.log2_lt_pow2. }
  pose proof (Z.log2_spec a Ha) as [Hlo Hhi].
  unfold py_truediv.
  destruct (Z.eqb_spec (2 ^ n) 0); [lia |].
  destruct (Z.eqb_spec a 0); [lia |].
  rewrite !Z.abs_eq, !Z.sgn_pos by lia.
  unfold truediv_pos. rewrite floor_log2_ratio_pow2 by lia.
  set (L := Z.log2 a) in *.
  destruct (Z.max_spec (L - n - 52) (-1074)) as [[Hc ->] | [Hc ->]].
  - (* the quotient lies below the normal range *)
    unfold scale. change (0 <=? -1074) with false. cbv iota.
    change (- -1074) with 1074.
    set (mant := round_half_even (a * 2 ^ 1074) (2 ^ n)).
    assert (0 <= mant < 2 ^ 1074) as Hm.
    { pose proof (round_half_even_bounds (a * 2 ^ 1074) (2 ^ n) Hpn) as Hb.
      fold mant in Hb.
      assert (0 < 2 ^ 1074) by (by apply Z.pow_pos_nonneg).
      assert (0 <= a * 2 ^ 1074 / 2 ^ n) by (apply Z.div_pos; lia).
      assert (a * 2 ^ 1074 / 2 ^ n < 2 ^ 52).
      { apply Z.div_lt_upper_bound; [done |].
        rewrite <- Z.pow_add_r by lia.
        apply Z.lt_le_trans with (2 ^ (L + 1) * 2 ^ 1074).
        - apply Z.mul_lt_mono_pos_r; [done |].
          replace (L + 1) with (Z.succ L) by lia. done.
        - rewrite <- Z.pow_add_r by lia.
          apply Z.pow_le_mono_r; lia. }
      assert (2 ^ 52 + 1 < 2 ^ 1074).
      { change (2 ^ 52 + 1) with (2 ^ 52 + 2 ^ 0).
        apply Z.lt_le_trans with (2 ^ 53); [| apply Z.pow_le_mono_r; lia].
        change (2 ^ 53) with (2 ^ 52 + 2 ^ 52).
        apply Z.add_lt_mono_l. done. }
      lia. }
    rewrite (Z.pow_neg_r 2 (-1074)), Z.mul_0_r by lia.
    change (2 ^ 1024 <=? 0) with false. cbv iota.
    cbn [mbind result_bind fmap result_fmap]. unfold py_int. cbn [fmant fexp].
    change (0 <=? -1074) with false. cbv iota.
    change (- -1074) with 1074.
    rewrite !Z.mul_1_l, Z.quot_small by done.
    rewrite Z.div_small; [done |].
    split; [lia |].
    apply Z.lt_le_trans with (2 ^ 53); [done |].
    apply Z.pow_le_mono_r; lia.
  - (* the quotient is a normal number *)
    set (e := L - n - 52) in *.
    unfold scale.
    destruct (Z.leb_spec 0 e) as [He | He].
    + assert (n = 0) as -> by lia. assert (e = 0) as -> by lia.
      change (2 ^ 0) with 1. rewrite !Z.mul_1_r.
      pose proof (round_half_even_exact a 1) as Hr.
      rewrite Z.mul_1_r in Hr. rewrite Hr by lia.
      destruct (Z.leb_spec (2 ^ 1024) a) as [Hov |].
      { exfalso. assert (2 ^ 53 <= 2 ^ 1024) by (apply Z.pow_le_mono_r; lia).
        lia. }
      cbn [mbind result_bind fmap result_fmap]. unfold py_int. cbn [fmant fexp].
      change (0 <=? 0) with true. cbv iota.
      change (2 ^ 0) with 1. rewrite !Z.mul_1_l, Z.mul_1_r, Z.div_1_r. done.
    + assert (- e = (52 - L) + n) as -> by lia.
      rewrite Z.pow_add_r, Z.mul_assoc by lia.
      rewrite round_half_even_exact by done.
      rewrite (Z.pow_neg_r 2 e), Z.mul_0_r by lia.
      change (2 ^ 1024 <=? 0) with false. cbv iota.
      cbn [mbind result_bind fmap result_fmap]. unfold py_int. cbn [fmant fexp].
      destruct (Z.leb_spec 0 e); [lia |].
      assert (- e = (52 - L) + n) as -> by lia.
      assert (0 < 2 ^ (52 - L)) by (apply Z.pow_pos_nonneg; lia).
      rewrite !Z.mul_1_l, Z.pow_add_r by lia.
      rewrite Z.quot_div_nonneg by nia.
      rewrite (Z.mul_comm (2 ^ (52 - L)) (2 ^ n)).
      rewrite Z.div_mul_cancel_r by lia. done.
Qed.

Lemma py_truediv_pow2_ok a n :
  0 < a < 2 ^ 53 → 0 <= n →
  ∃ q, py_truediv a (2 ^ n) = OK q ∧ py_int q = a / 2 ^ n.
Proof.
  intros Ha Hn. pose proof (py_int_truediv_pow2 a n Ha Hn) as Hq.
  destruct (py_truediv a (2 ^ n)) as [q | e]; [| done].
  exists q. split; [done |]. by injection Hq.
Qed.

Lemma positive_config_inv latent_dim c h w ls :
  positive_config latent_dim [c; h; w] ls = true →
  0 < latent_dim ∧ 0 < c ∧ 0 < h < 2 ^ 53 ∧ 0 < w ∧ c * h * w < 2 ^ 63
  ∧ Forall (λ l, 0 < l) ls.
Proof.
  unfold positive_config.
  rewrite !andb_true_iff, forallb_forall, Forall_forall.
  intros [[Hl [[[[Hc Hh] Hh'] Hw] Hp]] Hls].
  repeat split; try lia.
  intros l Hin. apply list_elem_of_In, Hls in Hin. lia.
Qed.

Lemma valid_config_inv latent_dim c h w ls :
  valid_config latent_dim [c; h; w] ls = true →
  0 < latent_dim < 2 ^ 63 ∧ 0 < c ∧ 0 < h < 2 ^ 53 ∧ 0 < w
  ∧ c * h * w < 2 ^ 63 ∧ Forall (λ l, 0 < l < 2 ^ 63) ls.
Proof.
  unfold valid_config. rewrite !andb_true_iff, forallb_forall.
  intros [[Hpos Hl] Hls].
  apply positive_config_inv in Hpos as (? & ? & ? & ? & ? & Hpls).
  repeat split; try lia.
  rewrite Forall_forall in Hpls |- *. intros l Hin.
  specialize (Hpls l Hin). apply list_elem_of_In, Hls in Hin. lia.
Qed.

Lemma valid_config_positive latent_dim init_shape ls :
  valid_config latent_dim init_shape ls = true →
  positive_config latent_dim init_shape ls = true.
Proof. unfold valid_config. rewrite !andb_true_iff. tauto. Qed.

Lemma last_default_pos (ls : list Z) d :
  0 < d < 2 ^ 63 → Forall (λ l, 0 < l < 2 ^ 63) ls →
  0 < default d (last ls) < 2 ^ 63.
Proof.
  intros Hd Hls. destruct (last ls) as [x |] eqn:Hlast; [| done].
  apply last_Some_elem_of in Hlast.
  rewrite Forall_forall in Hls. by apply Hls.
Qed.

Lemma last_default_cons (x : Z) ls d d' :
  default d (last (x :: ls)) = default d' (last (x :: ls)).
Proof. rewrite last_cons. by destruct (last ls). Qed.

(** ** Running the constructor *)

Lemma new_ok l h : ctor_ok l = true → new l h = OK (length h, h ++ [l]).
Proof. intros Hl. unfold new. by rewrite Hl. Qed.

Lemma bind_run {A B} (m : Py A) (k : A → Py B) h :
  (m ≫= k) h
  = match m h with
    | OK (a, h') => k a h'
    | Raise e => Raise e
    end.
Proof. done. Qed.

Lemma ret_run {A} (a : A) (h : store) : mret (M := Py) a h = OK (a, h).
Proof. done. Qed.

Lemma lift_run {A} (r : result A) h :
  lift r h = match r with OK a => OK (a, h) | Raise e => Raise e end.
Proof. done. Qed.

(** One statement of a [Py] block, in a hypothesis about its outcome. *)
Ltac step H :=
  rewrite bind_run in H;
  lazymatch type of H with
  | match ?m with _ => _ end = _ =>
      let E := fresh "E" in
      destruct m as [[? ?] | ?] eqn:E
  end.

Lemma new_ok_inv l h r h' : new l h = OK (r, h') → ctor_ok l = true.
Proof. unfold new. by destruct (ctor_ok l). Qed.

Section Init_run.

Variable latent_dim' : Z.
Variable num_res_blocks' : Z.
Variable activation' : ref.
Variable use_batchnorm' : bool.
Variable use_preactivations' : bool.

Local Abbreviation stage := (stage_objects num_res_blocks' activation'
                     use_batchnorm' use_preactivations').
Local Abbreviation body := (body_objects num_res_blocks' activation'
                    use_batchnorm' use_preactivations').

Lemma res_blocks_run n width operations h :
  res_blocks activation' use_batchnorm' use_preactivations'
    n width operations h
  = OK (operations ++ seq (length h) n,
        h ++ replicate n (ResidualBlock width activation' use_batchnorm'
                            use_preactivations')).
Proof.
  revert operations h. induction n as [| n IH]; intros operations h.
  - cbn. by rewrite !app_nil_r.
  - cbn [res_blocks]. rewrite bind_run, new_ok by done.
    rewrite IH, length_app. cbn [length replicate seq].
    rewrite <- !app_assoc. cbn [app].
    by rewrite Nat.add_1_r.
Qed.

Lemma block_run width cin operations h :
  0 <= cin < 2 ^ 63 → 0 <= width < 2 ^ 63 →
  block num_res_blocks' activation' use_batchnorm' use_preactivations'
    width (cin, operations) h
  = OK ((width, operations ++ seq (length h) (length (stage cin width))),
        h ++ stage cin width).
Proof.
  intros Hc Hw. unfold block.
  rewrite bind_run, new_ok by (cbn [ctor_ok]; unfold size_ok; lia).
  rewrite bind_run, res_blocks_run, length_app. cbn [length mret Py_ret].
  unfold stage_objects. cbn [length seq].
  rewrite length_replicate, <- !app_assoc. cbn [app].
  by rewrite Nat.add_1_r.
Qed.

Lemma blocks_run ls cin operations h :
  0 <= cin < 2 ^ 63 → Forall (λ l, 0 <= l < 2 ^ 63) ls →
  blocks num_res_blocks' activation' use_batchnorm' use_preactivations'
    ls (cin, operations) h
  = OK ((default cin (last ls),
         operations ++ seq (length h) (length (body cin ls))),
        h ++ body cin ls).
Proof.
  intros Hc Hls. revert cin operations h Hc.
  induction Hls as [| width ls Hw Hls IH]; intros cin operations h Hc.
  - cbn. by rewrite !app_nil_r.
  - cbn [blocks]. rewrite bind_run, block_run by done.
    rewrite IH by done. cbn [body_objects].
    rewrite !length_app, seq_app, <- !app_assoc.
    rewrite last_cons. by destruct (last ls).
Qed.

Lemma maybe_batchnorm_run width rest operations h :
  0 <= width < 2 ^ 63 →
  maybe_batchnorm (width :: rest) use_batchnorm' operations h
  = OK (operations
          ++ seq (length h) (length (normalisation use_batchnorm' width)),
        h ++ normalisation use_batchnorm' width).
Proof.
  intros Hw. unfold maybe_batchnorm, normalisation.
  destruct use_batchnorm'.
  - rewrite bind_run, lift_run. cbn [getitem lookup list_lookup].
    rewrite bind_run, new_ok by (cbn [ctor_ok]; unfold size_ok; lia). done.
  - cbn. by rewrite !app_nil_r.
Qed.

Lemma init_body_run c hh w width rest h :
  valid_config latent_dim' [c; hh; w] (width :: rest) = true →
  init_body latent_dim' [c; hh; w] (width :: rest) num_res_blocks' c
    activation' use_batchnorm' use_preactivations' h
  = OK ({| latent_dim := latent_dim';
           init_shape := [c; hh; w];
           input_channels := default 0 (last (width :: rest));
           layers := width :: rest;
           num_res_blocks := num_res_blocks';
           activation := activation';
           use_batchnorm := use_batchnorm';
           use_preactivations := use_preactivations';
           init_linear := length h;
           model := built_model num_res_blocks' activation' use_batchnorm'
                      use_preactivations' (length h) (width :: rest) |},
        h ++ built_objects latent_dim' num_res_blocks' activation'
               use_batchnorm' use_preactivations' [c; hh; w] c
               (width :: rest)
               (hh / 2 ^ Z.of_nat (length (width :: rest)))).
Proof.
  intros Hv. apply valid_config_inv in Hv as (Hl & Hc & Hh & Hw & Hp & Hls).
  apply Forall_cons in Hls as [Hwidth Hrest].
  assert (0 <= np_prod [c; hh; w] < 2 ^ 63) as Hprod.
  { rewrite np_prod_3; nia. }
  assert (c < 2 ^ 63) as Hc' by nia.
  unfold init_body.
  rewrite bind_run, new_ok by (cbn [ctor_ok]; unfold size_ok; lia).
  rewrite bind_run, lift_run. cbn [getitem lookup list_lookup].
  rewrite bind_run, new_ok by (cbn [ctor_ok]; unfold size_ok; lia).
  rewrite bind_run, maybe_batchnorm_run by lia.
  rewrite bind_run, lift_run. cbn [getitem lookup list_lookup].
  rewrite bind_run, lift_run.
  rewrite bind_run, new_ok by (cbn [ctor_ok]; unfold size_ok; lia).
  rewrite bind_run, maybe_batchnorm_run by lia.
  rewrite bind_run, lift_run.
  assert (Forall (λ l, 0 <= l < 2 ^ 63) (width :: rest)) as Hall.
  { apply Forall_cons. split; [lia |].
    eapply Forall_impl; [exact Hrest |]. intros l Hlb. cbv beta in Hlb. lia. }
  rewrite bind_run, blocks_run by (done || lia).
  rewrite bind_run, lift_run. cbn [getitem lookup list_lookup].
  destruct (py_truediv_pow2_ok hh (Z.of_nat (length (width :: rest))))
    as (q & Hq & Hint); [lia.. |].
  rewrite bind_run, Hq, lift_run, Hint.
  pose proof (last_default_pos (width :: rest) width Hwidth
                (proj2 (Forall_cons _ _ _) (conj Hwidth Hrest))) as Hlast.
  assert (0 <= hh / 2 ^ Z.of_nat (length (width :: rest)) < 2 ^ 63) as Hk.
  { assert (0 < 2 ^ Z.of_nat (length (width :: rest)))
      by (apply Z.pow_pos_nonneg; lia).
    split; [apply Z.div_pos; lia |].
    apply Z.le_lt_trans with hh; [| lia].
    apply Z.div_le_upper_bound; [lia | nia]. }
  rewrite bind_run, new_ok by (cbn [ctor_ok]; unfold size_ok; lia).
  rewrite ret_run, (last_default_cons width rest width 0).
  unfold built_model, built_objects, final_conv.
  change (default 0 (head (width :: rest))) with width.
  set (norm := normalisation use_batchnorm' width).
  set (stages := body width (width :: rest)).
  rewrite !length_app. cbn [length]. rewrite seq_S.
  rewrite <- !app_assoc. cbn [app].
  do 3 f_equal.
  repeat first
    [ reflexivity
    | apply (f_equal2 cons); [lia |]
    | apply (f_equal2 app); [apply (f_equal2 seq); lia |] ].
Qed.

End Init_run.

Lemma init_run latent_dim c hh w width rest num_res_blocks activation
    use_batchnorm use_preactivations h0 :
  valid_config latent_dim [c; hh; w] (width :: rest) = true →
  let a := activation_ref activation h0 in
  let h1 := h0 ++ activation_objects activation in
  __init__ latent_dim [c; hh; w] (width :: rest) num_res_blocks activation
    use_batchnorm use_preactivations h0
  = OK ({| latent_dim := latent_dim;
           init_shape := [c; hh; w];
           input_channels := default 0 (last (width :: rest));
           layers := width :: rest;
           num_res_blocks := num_res_blocks;
           activation := a;
           use_batchnorm := use_batchnorm;
           use_preactivations := use_preactivations;
           init_linear := length h1;
           model := built_model num_res_blocks a use_batchnorm
                      use_preactivations (length h1) (width :: rest) |},
        h1 ++ built_objects latent_dim num_res_blocks a use_batchnorm
                use_preactivations [c; hh; w] c (width :: rest)
                (hh / 2 ^ Z.of_nat (length (width :: rest)))).
Proof.
  intros Hv a h1. unfold __init__.
  rewrite bind_run, lift_run. cbn [getitem lookup list_lookup].
  rewrite bind_run.
  destruct activation as [r |]; subst a h1; unfold activation_ref;
    cbn [activation_objects default from_option id].
  - rewrite ret_run, app_nil_r. by apply init_body_run.
  - rewrite new_ok by done.
    rewrite (init_body_run _ _ _ _ _ _ _ _ _ _ _ Hv).
    by rewrite length_app, Nat.add_1_r.
Qed.

(** ** Reading the assembled pipeline back *)

Lemma lookup_new (h objs : store) i :
  (h ++ objs) !! (length h + i)%nat = objs !! i.
Proof. by rewrite lookup_app_r, Nat.add_comm, Nat.add_sub by lia. Qed.

Lemma lookup_seq_new (h pre part : store) :
  Forall2 (λ r l, (h ++ pre ++ part) !! r = Some l)
    (seq (length h + length pre) (length part)) part.
Proof.
  revert pre. induction part as [| x part IH]; intros pre; [constructor |].
  cbn [length seq]. constructor.
  - rewrite app_assoc. apply list_lookup_middle. by rewrite length_app.
  - specialize (IH (pre ++ [x])).
    rewrite length_app, <- app_assoc in IH. cbn [length app] in IH.
    by rewrite Nat.add_1_r, Nat.add_succ_r in IH.
Qed.

Lemma resolve_built latent_dim num_res_blocks a use_batchnorm
    use_preactivations shape cin width rest k (h : store) act :
  h !! a = Some act →
  resolve
    (h ++ built_objects latent_dim num_res_blocks a use_batchnorm
            use_preactivations shape cin (width :: rest) k)
    (built_model num_res_blocks a use_batchnorm use_preactivations
       (length h) (width :: rest))
  = Some (pipeline latent_dim num_res_blocks a use_batchnorm
            use_preactivations cin (width :: rest) act k).
Proof.
  intros Ha. apply mapM_Some_2.
  unfold built_objects, built_model, pipeline, preprocessing.
  change (default 0 (head (width :: rest))) with width.
  set (stages := body_objects _ _ _ _ width (width :: rest)).
  set (final := final_conv _ _ _).
  assert (length (stages ++ [final]) = S (length stages)) as Hlen.
  { rewrite length_app. cbn. lia. }
  clearbody stages final.
  unfold normalisation. destruct use_batchnorm; cbn [length];
    rewrite <- Hlen; cbn [seq app].
  - repeat first
      [ apply Forall2_cons; split;
        [first [by rewrite lookup_new | by apply lookup_app_l_Some] |] ].
    apply (lookup_seq_new h [_; _; _; _; _] (stages ++ [final])).
  - repeat first
      [ apply Forall2_cons; split;
        [first [by rewrite lookup_new | by apply lookup_app_l_Some] |] ].
    apply (lookup_seq_new h [_; _; _] (stages ++ [final])).
Qed.

(** The constructor on a valid configuration with at least one stage:
    it returns, and its pipeline is [pipeline]. *)
Lemma init_pipeline latent_dim c hh w width rest num_res_blocks activation_arg
    use_batchnorm use_preactivations h0 act :
  valid_config latent_dim [c; hh; w] (width :: rest) = true →
  activation_module activation_arg h0 = Some act →
  ∃ self h,
    __init__ latent_dim [c; hh; w] (width :: rest) num_res_blocks activation_arg
      use_batchnorm use_preactivations h0 = OK (self, h)
    ∧ activation self = activation_ref activation_arg h0
    ∧ h !! activation_ref activation_arg h0 = Some act
    ∧ input_channels self = default 0 (last (width :: rest))
    ∧ resolve h (model self)
      = Some (pipeline latent_dim num_res_blocks
                (activation_ref activation_arg h0) use_batchnorm
                use_preactivations c (width :: rest) act
                (hh / 2 ^ Z.of_nat (length (width :: rest)))).
Proof.
  intros Hv Hact. unfold activation_module in Hact.
  eexists _, _. split; [by apply init_run |].
  cbn [activation input_channels model].
  split_and!; [done | by apply lookup_app_l_Some | done |].
  by apply resolve_built.
Qed.

Lemma last_pipeline latent_dim num_res_blocks a use_batchnorm
    use_preactivations cin ls act k :
  last (pipeline latent_dim num_res_blocks a use_batchnorm use_preactivations
          cin ls act k)
  = Some (Conv2d (default 0 (last ls)) latent_dim k 1 0).
Proof. unfold pipeline. by rewrite !app_assoc, last_snoc. Qed.

(** ** Construction: the kernel of the final convolution *)

(** Linear facts about [a / 2 ^ n] and [a mod 2 ^ n], with the power
    abstracted. *)
Ltac div_by_pow2 a n :=
  let p := fresh "p" in
  set (p := 2 ^ n) in *;
  assert (0 < p) by (apply Z.pow_pos_nonneg; lia);
  pose proof (Z.div_mod a p ltac:(lia));
  pose proof (Z.mod_pos_bound a p ltac:(lia));
  nia.

(** C1, as the code has it: when [init_shape[1]] is not a multiple of
    [2 ^ len(layers)], construction of a valid configuration with at least
    one stage still returns.  [int] truncates the quotient, and the final
    convolution gets the floor of [init_shape[1] / 2 ^ len(layers)] as its
    kernel size, which is strictly below the exact quotient. *)
Theorem init_truncates_kernel_size latent_dim c hh w width rest
    num_res_blocks activation_arg use_batchnorm use_preactivations h0 act :
  valid_config latent_dim [c; hh; w] (width :: rest) = true →
  activation_module activation_arg h0 = Some act →
  hh `mod` 2 ^ Z.of_nat (length (width :: rest)) ≠ 0 →
  ∃ self h stages k,
    __init__ latent_dim [c; hh; w] (width :: rest) num_res_blocks
      activation_arg use_batchnorm use_preactivations h0 = OK (self, h)
    ∧ resolve h (model self) = Some stages
    ∧ last stages = Some (Conv2d (default 0 (last (width :: rest)))
                            latent_dim k 1 0)
    ∧ k = hh / 2 ^ Z.of_nat (length (width :: rest))
    ∧ k * 2 ^ Z.of_nat (length (width :: rest)) < hh
        < (k + 1) * 2 ^ Z.of_nat (length (width :: rest)).
Proof.
  intros Hv Hact Hndiv.
  destruct (init_pipeline _ _ _ _ _ _ num_res_blocks activation_arg
              use_batchnorm use_preactivations h0 act Hv Hact)
    as (self & h & Hinit & _ & _ & _ & Hres).
  exists self, h. eexists _, _.
  split_and!; [done | done | apply last_pipeline | done | ..];
    div_by_pow2 hh (Z.of_nat (length (width :: rest))).
Qed.

Lemma init_truncates_kernel_size_witness :
  ∃ self h stages k,
    __init__ 8 [4; 7; 7] [16] 2 None true true [] = OK (self, h)
    ∧ resolve h (model self) = Some stages
    ∧ last stages = Some (Conv2d 16 8 k 1 0)
    ∧ k = 3
    ∧ k * 2 < 7 < (k + 1) * 2.
Proof.
  apply (init_truncates_kernel_size 8 4 7 7 16 [] 2 None true true [] ReLU);
    [reflexivity | reflexivity | vm_compute; discriminate].
Defined.

(** C1 fails as stated: height 7 with one stage is not divisible, and
    the constructor returns. *)
Lemma init_indivisible_height_returns :
  ¬ (7 `mod` 2 ^ Z.of_nat (length [16]) ≠ 0 →
     ∃ e, __init__ 8 [4; 7; 7] [16] 2 None true true [] = Raise e).
Proof.
  intros Hclaim. destruct Hclaim as [e He]; [vm_compute; discriminate |].
  vm_compute in He. discriminate.
Qed.

(** C5, as the code has it: for a valid configuration with at least one
    stage whose [init_shape[1]] is a multiple of [2 ^ len(layers)],
    construction returns and the last stage is a convolution from
    [layers[-1]] channels to [latent_dim] channels, stride 1, no padding,
    whose kernel size is the positive integer
    [init_shape[1] / 2 ^ len(layers)]. *)
Theorem init_final_conv latent_dim c hh w width rest
    num_res_blocks activation_arg use_batchnorm use_preactivations h0 act :
  valid_config latent_dim [c; hh; w] (width :: rest) = true →
  activation_module activation_arg h0 = Some act →
  hh `mod` 2 ^ Z.of_nat (length (width :: rest)) = 0 →
  ∃ self h stages k,
    __init__ latent_dim [c; hh; w] (width :: rest) num_res_blocks
      activation_arg use_batchnorm use_preactivations h0 = OK (self, h)
    ∧ resolve h (model self) = Some stages
    ∧ last stages = Some (Conv2d (default 0 (last (width :: rest)))
                            latent_dim k 1 0)
    ∧ 0 < k
    ∧ k * 2 ^ Z.of_nat (length (width :: rest)) = hh.
Proof.
  intros Hv Hact Hdiv.
  destruct (init_pipeline _ _ _ _ _ _ num_res_blocks activation_arg
              use_batchnorm use_preactivations h0 act Hv Hact)
    as (self & h & Hinit & _ & _ & _ & Hres).
  apply valid_config_inv in Hv as (_ & _ & Hh & _).
  exists self, h. eexists _, _.
  split_and!; [done | done | apply last_pipeline | ..];
    div_by_pow2 hh (Z.of_nat (length (width :: rest))).
Qed.

Lemma init_final_conv_witness :
  ∃ self h stages k,
    __init__ 8 [4; 8; 8] [16; 32] 2 None true true [] = OK (self, h)
    ∧ resolve h (model self) = Some stages
    ∧ last stages = Some (Conv2d 32 8 k 1 0)
    ∧ 0 < k
    ∧ k * 4 = 8.
Proof.
  apply (init_final_conv 8 4 8 8 16 [32] 2 None true true [] ReLU);
    reflexivity.
Defined.

(** C5 fails as stated: with no stages the height is divisible by
    [2 ^ 0], and the constructor raises. *)
Lemma init_divisible_height_empty_layers :
  ¬ (8 `mod` 2 ^ Z.of_nat (length (@nil Z)) = 0 →
     ∃ self h stages k,
       __init__ 8 [4; 8; 8] [] 2 None true true [] = OK (self, h)
       ∧ resolve h (model self) = Some stages
       ∧ last stages = Some (Conv2d (default 0 (head (@nil Z))) 8 k 1 0)
       ∧ k = 8).
Proof.
  intros Hclaim. destruct Hclaim as (self & h & stages & k & He & _);
    [reflexivity |].
  vm_compute in He. discriminate.
Qed.

(** ** Construction without stages *)

Lemma valid_config_shape latent_dim init_shape ls :
  valid_config latent_dim init_shape ls = true →
  ∃ c h w, init_shape = [c; h; w].
Proof.
  intros Hv. apply valid_config_positive in Hv.
  unfold positive_config in Hv. rewrite !andb_true_iff in Hv.
  destruct Hv as [[_ Hs] _].
  destruct init_shape as [| c [| h [| w [| ? ?]]]]; try done. by exists c, h, w.
Qed.

(** C2, as the code has it: with [layers = []] and every other field
    valid, the constructor does not return.  The dense projection is
    built, and then sizing the first preprocessing convolution reads
    [layers[0]] and raises [IndexError]; no pipeline is assembled. *)
Theorem init_empty_layers_raises latent_dim init_shape num_res_blocks
    activation_arg use_batchnorm use_preactivations h0 :
  valid_config latent_dim init_shape [] = true →
  __init__ latent_dim init_shape [] num_res_blocks activation_arg
    use_batchnorm use_preactivations h0
  = Raise IndexError.
Proof.
  intros Hv. destruct (valid_config_shape _ _ _ Hv) as (c & hh & w & ->).
  apply valid_config_inv in Hv as (Hl & Hc & Hh & Hw & Hp & _).
  assert (0 <= np_prod [c; hh; w] < 2 ^ 63) as Hprod.
  { rewrite np_prod_3; nia. }
  unfold __init__. rewrite bind_run, lift_run.
  cbn [getitem lookup list_lookup]. rewrite bind_run.
  assert (∀ a h1,
    init_body latent_dim [c; hh; w] [] num_res_blocks c a use_batchnorm
      use_preactivations h1 = Raise IndexError) as Hbody.
  { intros a h1. unfold init_body.
    rewrite bind_run, new_ok by (cbn [ctor_ok]; unfold size_ok; lia).
    by rewrite bind_run, lift_run. }
  destruct activation_arg as [a |].
  - by rewrite ret_run, Hbody.
  - by rewrite new_ok, Hbody.
Qed.

Lemma init_empty_layers_raises_witness :
  __init__ 8 [4; 8; 8] [] 2 None true true [] = Raise IndexError.
Proof.
  apply (init_empty_layers_raises 8 [4; 8; 8] 2 None true true []).
  reflexivity.
Defined.

(** C2 fails as stated: the constructor does not return on
    [layers = []]. *)
Lemma init_empty_layers_no_decoder :
  ¬ ∃ self h stages,
      __init__ 8 [4; 8; 8] [] 2 None true true [] = OK (self, h)
      ∧ resolve h (model self) = Some stages
      ∧ Forall (λ l, is_residual l = false) stages.
Proof.
  intros (self & h & stages & He & _). vm_compute in He. discriminate.
Qed.

(** ** The worked configuration *)

(** C6: for [latent_dim = 8], [init_shape = (4, 8, 8)],
    [layers = [16, 32]] and [num_res_blocks = 2], whatever the activation
    and the two flags, the pipeline is: the convolution 4 -> 16 and the
    convolution 16 -> 16 (kernel 3, stride 1, padding 1), each followed by
    the optional normalisation and the activation; then, for each of the
    two stages, one downsampling convolution followed by two residual
    blocks; then one final convolution with kernel size [8 / 4 = 2].
    Read without normalisation and activation stages this is 2 + (1 + 2)
    + (1 + 2) + 1 stages in exactly that order. *)
Theorem example_pipeline activation_arg use_batchnorm use_preactivations
    h0 act :
  activation_module activation_arg h0 = Some act →
  is_activation act = true →
  let a := activation_ref activation_arg h0 in
  let res width := ResidualBlock width a use_batchnorm use_preactivations in
  ∃ self h stages,
    __init__ 8 [4; 8; 8] [16; 32] 2 activation_arg use_batchnorm
      use_preactivations h0 = OK (self, h)
    ∧ resolve h (model self) = Some stages
    ∧ stages
      = [Conv2d 4 16 3 1 1] ++ normalisation use_batchnorm 16 ++ [act]
          ++ [Conv2d 16 16 3 1 1] ++ normalisation use_batchnorm 16 ++ [act]
          ++ [Conv2d 16 16 2 2 0; res 16; res 16]
          ++ [Conv2d 16 32 2 2 0; res 32; res 32]
          ++ [Conv2d 32 8 2 1 0]
    ∧ filter (λ l, is_conv l || is_residual l) stages
      = [Conv2d 4 16 3 1 1; Conv2d 16 16 3 1 1;
         Conv2d 16 16 2 2 0; res 16; res 16;
         Conv2d 16 32 2 2 0; res 32; res 32;
         Conv2d 32 8 2 1 0].
Proof.
  intros Hact Hkind a res.
  destruct (init_pipeline 8 4 8 8 16 [32] 2 activation_arg use_batchnorm
              use_preactivations h0 act eq_refl Hact)
    as (self & h & Hinit & _ & _ & _ & Hres).
  exists self, h. eexists. split_and!; [done | exact Hres | |].
  - by destruct use_batchnorm.
  - destruct use_batchnorm, act; done.
Qed.

Lemma example_pipeline_witness :
  ∃ self h stages,
    __init__ 8 [4; 8; 8] [16; 32] 2 None true true [] = OK (self, h)
    ∧ resolve h (model self) = Some stages
    ∧ stages
      = [Conv2d 4 16 3 1 1; BatchNorm2d 16; ReLU;
         Conv2d 16 16 3 1 1; BatchNorm2d 16; ReLU;
         Conv2d 16 16 2 2 0;
         ResidualBlock 16 0%nat true true; ResidualBlock 16 0%nat true true;
         Conv2d 16 32 2 2 0;
         ResidualBlock 32 0%nat true true; ResidualBlock 32 0%nat true true;
         Conv2d 32 8 2 1 0]
    ∧ filter (λ l, is_conv l || is_residual l) stages
      = [Conv2d 4 16 3 1 1; Conv2d 16 16 3 1 1;
         Conv2d 16 16 2 2 0;
         ResidualBlock 16 0%nat true true; ResidualBlock 16 0%nat true true;
         Conv2d 16 32 2 2 0;
         ResidualBlock 32 0%nat true true; ResidualBlock 32 0%nat true true;
         Conv2d 32 8 2 1 0].
Proof.
  apply (example_pipeline None true true [] ReLU); reflexivity.
Defined.

(** ** The downsampling stages *)

Section Stages.

Variable num_res_blocks' : Z.
Variable activation' : ref.
Variable use_batchnorm' : bool.
Variable use_preactivations' : bool.

Local Abbreviation stage := (stage_objects num_res_blocks' activation'
                               use_batchnorm' use_preactivations').
Local Abbreviation body := (body_objects num_res_blocks' activation'
                              use_batchnorm' use_preactivations').

Lemma body_objects_app cin l1 l2 :
  body cin (l1 ++ l2) = body cin l1 ++ body (default cin (last l1)) l2.
Proof.
  revert cin. induction l1 as [| width l1 IH]; intros cin; [done |].
  cbn [app body_objects]. rewrite IH, <- app_assoc.
  do 2 f_equal. rewrite last_cons. by destruct (last l1).
Qed.

Lemma length_body_objects cin ls :
  length (body cin ls) = (length ls * S (Z.to_nat num_res_blocks'))%nat.
Proof.
  revert cin. induction ls as [| width ls IH]; intros cin; [done |].
  cbn [body_objects]. rewrite length_app, IH. unfold stage_objects.
  cbn [length]. rewrite length_replicate. lia.
Qed.

Lemma last_take_stage_input (ls : list Z) i li :
  ls !! i = Some li →
  ∃ prev, stage_input ls i = Some prev
          ∧ default (default 0 (head ls)) (last (take i ls)) = prev.
Proof.
  intros Hi. destruct i as [| i].
  - destruct ls as [| l ls]; [done |]. by exists l.
  - assert (S i < length ls)%nat as Hlt by (by eapply lookup_lt_Some).
    destruct (lookup_lt_is_Some_2 ls i ltac:(lia)) as [prev Hprev].
    exists prev. split; [done |].
    rewrite last_lookup, length_take, Nat.min_l by lia.
    cbn [pred]. rewrite lookup_take_lt by lia. by rewrite Hprev.
Qed.

(** Stage [i] inside the loop's output: everything the earlier stages
    appended comes first, everything the later ones append follows. *)
Lemma body_objects_stage (ls : list Z) i li :
  ls !! i = Some li →
  ∃ prev, stage_input ls i = Some prev
    ∧ body (default 0 (head ls)) ls
      = body (default 0 (head ls)) (take i ls)
          ++ stage prev li ++ body li (drop (S i) ls).
Proof.
  intros Hi. destruct (last_take_stage_input ls i li Hi) as (prev & Hp & Hd).
  exists prev. split; [done |].
  rewrite <- (take_drop_middle ls i li Hi) at 2.
  by rewrite body_objects_app, Hd.
Qed.

End Stages.

Lemma last_take_S (ls : list Z) i li :
  ls !! i = Some li → last (take (S i) ls) = Some li.
Proof.
  intros Hi. assert (i < length ls)%nat by (by eapply lookup_lt_Some).
  rewrite last_lookup, length_take, Nat.min_l by lia.
  cbn [pred]. by rewrite lookup_take_lt by lia.
Qed.

(** C8: channel bookkeeping.  In a decoder built from a valid
    configuration, stage [i] is the convolution from [layers[i - 1]]
    channels ([layers[0]] for the first stage, which is what the
    preprocessing hands over) to [layers[i]] channels, followed by
    [num_res_blocks] residual blocks at [layers[i]] channels; the loop
    over the first [i + 1] stages leaves [layers[i]] as the tracked
    channel count, and the whole constructor leaves [layers[-1]]. *)
Theorem channel_bookkeeping latent_dim c hh w width rest num_res_blocks
    activation_arg use_batchnorm use_preactivations h0 act i li :
  valid_config latent_dim [c; hh; w] (width :: rest) = true →
  activation_module activation_arg h0 = Some act →
  (width :: rest) !! i = Some li →
  let ls := width :: rest in
  let a := activation_ref activation_arg h0 in
  let body := body_objects num_res_blocks a use_batchnorm use_preactivations in
  ∃ self h stages prev,
    __init__ latent_dim [c; hh; w] ls num_res_blocks activation_arg
      use_batchnorm use_preactivations h0 = OK (self, h)
    ∧ resolve h (model self) = Some stages
    ∧ stage_input ls i = Some prev
    ∧ stages
      = preprocessing use_batchnorm c width act
          ++ body width (take i ls)
          ++ [Conv2d prev li 2 2 0]
          ++ replicate (Z.to_nat num_res_blocks)
               (ResidualBlock li a use_batchnorm use_preactivations)
          ++ body li (drop (S i) ls)
          ++ [final_conv latent_dim (default 0 (last ls))
                (hh / 2 ^ Z.of_nat (length ls))]
    ∧ (∀ operations h', ∃ operations' h'',
         blocks num_res_blocks a use_batchnorm use_preactivations
           (take (S i) ls) (width, operations) h'
         = OK ((li, operations'), h''))
    ∧ input_channels self = default 0 (last ls).
Proof.
  intros Hv Hact Hi ls a body. subst ls a body.
  destruct (init_pipeline _ _ _ _ _ _ num_res_blocks activation_arg
              use_batchnorm use_preactivations h0 act Hv Hact)
    as (self & h & Hinit & _ & _ & Hch & Hres).
  destruct (body_objects_stage num_res_blocks
              (activation_ref activation_arg h0) use_batchnorm
              use_preactivations (width :: rest) i li Hi)
    as (prev & Hprev & Hbody).
  exists self, h. eexists. exists prev.
  split_and!; [done | exact Hres | done | | | done].
  - unfold pipeline. rewrite Hbody.
    by rewrite <- !app_assoc.
  - intros operations h'.
    apply valid_config_inv in Hv as (_ & _ & _ & _ & _ & Hls).
    eexists _, _. rewrite blocks_run.
    + by rewrite (last_take_S (width :: rest) i li Hi).
    + apply Forall_inv in Hls. lia.
    + apply Forall_take. eapply Forall_impl; [exact Hls |]. cbn. lia.
Qed.

Lemma channel_bookkeeping_witness :
  ∃ self h stages prev,
    __init__ 8 [4; 8; 8] [16; 32] 2 None true true [] = OK (self, h)
    ∧ resolve h (model self) = Some stages
    ∧ stage_input [16; 32] 1 = Some prev
    ∧ stages
      = [Conv2d 4 16 3 1 1; BatchNorm2d 16; ReLU;
         Conv2d 16 16 3 1 1; BatchNorm2d 16; ReLU]
          ++ [Conv2d 16 16 2 2 0;
              ResidualBlock 16 0%nat true true;
              ResidualBlock 16 0%nat true true]
          ++ [Conv2d prev 32 2 2 0]
          ++ [ResidualBlock 32 0%nat true true;
              ResidualBlock 32 0%nat true true]
          ++ []
          ++ [Conv2d 32 8 2 1 0]
    ∧ (∀ operations h', ∃ operations' h'',
         blocks 2 0%nat true true [16; 32] (16, operations) h'
         = OK ((32, operations'), h''))
    ∧ input_channels self = 32.
Proof.
  apply (channel_bookkeeping 8 4 8 8 16 [32] 2 None true true [] ReLU 1 32);
    reflexivity.
Defined.

(** A kernel-2, stride-2, unpadded convolution halves an even extent. *)
Lemma conv_out_half size :
  0 < size → size `mod` 2 = 0 → conv_out size 2 2 0 = size / 2.
Proof.
  intros Hpos Heven. unfold conv_out.
  pose proof (Z.div_mod size 2 ltac:(lia)) as Hs.
  replace (size + 2 * 0 - (2 - 1) - 1) with ((size / 2 - 1) * 2) by lia.
  rewrite Z.div_mul by lia. lia.
Qed.

Lemma conv2d_halves cin cout n height width :
  0 < cout →
  0 < height → 0 < width → height `mod` 2 = 0 → width `mod` 2 = 0 →
  conv2d_forward cin cout 2 2 0 [cin; height; width]
    = OK [cout; height / 2; width / 2]
  ∧ conv2d_forward cin cout 2 2 0 [n; cin; height; width]
    = OK [n; cout; height / 2; width / 2].
Proof.
  intros Hout Hh Hw Hhe Hwe. unfold conv2d_forward.
  rewrite !conv_out_half by done.
  rewrite Z.eqb_refl. apply Z.ltb_lt in Hout. rewrite Hout.
  assert (2 <= height + 2 * 0) as Hkh.
  { pose proof (Z.div_mod height 2 ltac:(lia)). lia. }
  assert (2 <= width + 2 * 0) as Hkw.
  { pose proof (Z.div_mod width 2 ltac:(lia)). lia. }
  apply Z.leb_le in Hkh, Hkw. by rewrite Hkh, Hkw.
Qed.

(** C9: in a decoder built from a valid configuration, the module at the
    head of stage [i] is a kernel-2, stride-2, unpadded convolution, and
    called on an input with its channel count and even, positive height
    and width (batched or not) it returns both extents halved. *)
Theorem downsampling_halves latent_dim c hh w width rest num_res_blocks
    activation_arg use_batchnorm use_preactivations h0 act i li :
  valid_config latent_dim [c; hh; w] (width :: rest) = true →
  activation_module activation_arg h0 = Some act →
  (width :: rest) !! i = Some li →
  ∃ self h r cin,
    __init__ latent_dim [c; hh; w] (width :: rest) num_res_blocks
      activation_arg use_batchnorm use_preactivations h0 = OK (self, h)
    ∧ model self !! ((if use_batchnorm then 6 else 4)
                     + i * S (Z.to_nat num_res_blocks))%nat = Some r
    ∧ h !! r = Some (Conv2d cin li 2 2 0)
    ∧ ∀ n height width,
        0 < height → 0 < width →
        height `mod` 2 = 0 → width `mod` 2 = 0 →
        call h r [cin; height; width] = OK [li; height / 2; width / 2]
        ∧ call h r [n; cin; height; width]
          = OK [n; li; height / 2; width / 2].
Proof.
  intros Hv Hact Hi.
  destruct (init_pipeline _ _ _ _ _ _ num_res_blocks activation_arg
              use_batchnorm use_preactivations h0 act Hv Hact)
    as (self & h & Hinit & _ & _ & _ & Hres).
  destruct (body_objects_stage num_res_blocks
              (activation_ref activation_arg h0) use_batchnorm
              use_preactivations (width :: rest) i li Hi)
    as (cin & _ & Hbody).
  apply mapM_Some_1 in Hres.
  set (pos := ((if use_batchnorm then 6 else 4)
               + i * S (Z.to_nat num_res_blocks))%nat).
  assert (pipeline latent_dim num_res_blocks
            (activation_ref activation_arg h0) use_batchnorm
            use_preactivations c (width :: rest) act
            (hh / 2 ^ Z.of_nat (length (width :: rest))) !! pos
          = Some (Conv2d cin li 2 2 0)) as Hpos.
  { unfold pipeline. rewrite Hbody, <- !app_assoc.
    unfold stage_objects. cbn [app]. rewrite app_assoc.
    apply list_lookup_middle.
    rewrite length_app, length_body_objects, length_take.
    assert (i < length (width :: rest))%nat by (by eapply lookup_lt_Some).
    rewrite Nat.min_l by lia.
    subst pos. unfold preprocessing, normalisation.
    by destruct use_batchnorm. }
  destruct (Forall2_lookup_r _ _ _ _ _ Hres Hpos) as (r & Hr & Hlook).
  exists self, h, r, cin. split_and!; [done | done | done |].
  intros n height width' Hh Hw Hhe Hwe.
  unfold call. rewrite Hlook. cbn [layer_forward].
  apply valid_config_inv in Hv as (_ & _ & _ & _ & _ & Hls).
  pose proof (Forall_lookup_1 _ _ _ _ Hls Hi) as Hli. cbv beta in Hli.
  apply conv2d_halves; (done || lia).
Qed.

Lemma downsampling_halves_witness :
  ∃ self h r cin,
    __init__ 8 [4; 8; 8] [16; 32] 2 None true true [] = OK (self, h)
    ∧ model self !! 9%nat = Some r
    ∧ h !! r = Some (Conv2d cin 32 2 2 0)
    ∧ ∀ n height width,
        0 < height → 0 < width →
        height `mod` 2 = 0 → width `mod` 2 = 0 →
        call h r [cin; height; width] = OK [32; height / 2; width / 2]
        ∧ call h r [n; cin; height; width]
          = OK [n; 32; height / 2; width / 2].
Proof.
  apply (downsampling_halves 8 4 8 8 16 [32] 2 None true true [] ReLU 1 32);
    reflexivity.
Defined.

(** ** The shared activation *)

Section Activation.

Variable latent_dim' : Z.
Variable num_res_blocks' : Z.
Variable activation' : ref.
Variable use_batchnorm' : bool.
Variable use_preactivations' : bool.

Lemma body_objects_elem cin ls l :
  l ∈ body_objects num_res_blocks' activation' use_batchnorm'
        use_preactivations' cin ls →
  (∃ i o, l = Conv2d i o 2 2 0)
  ∨ (∃ f, l = ResidualBlock f activation' use_batchnorm'
                use_preactivations').
Proof.
  revert cin. induction ls as [| width ls IH]; intros cin Hl.
  - by apply elem_of_nil in Hl.
  - cbn [body_objects] in Hl. unfold stage_objects in Hl.
    apply elem_of_app in Hl as [Hl | Hl]; [| by eapply IH].
    apply elem_of_cons in Hl as [-> | Hl]; [left; by eexists _, _ |].
    apply elem_of_replicate_inv in Hl as ->. right. by eexists.
Qed.

(** Every residual block of a pipeline holds [activation'], as long as
    the activation module is not itself a residual block. *)
Lemma pipeline_residual cin ls act k f a b p :
  is_residual act = false →
  ResidualBlock f a b p
    ∈ pipeline latent_dim' num_res_blocks' activation' use_batchnorm'
        use_preactivations' cin ls act k →
  a = activation'.
Proof.
  intros Hact. unfold pipeline, preprocessing, normalisation, final_conv.
  rewrite !elem_of_app, !list_elem_of_singleton.
  intros [Hpre | [Hbody | Hfin]].
  - destruct use_batchnorm';
      repeat (rewrite ?elem_of_nil, ?list_elem_of_singleton in Hpre;
              destruct Hpre as [Hpre | Hpre]; try done);
      by rewrite <- Hpre in Hact.
  - apply body_objects_elem in Hbody as [(i & o & ?) | (f' & Hf)]; [done |].
    by injection Hf.
  - done.
Qed.

(** The constructor allocates no [nn.ReLU] after line 43. *)
Lemma built_objects_no_relu shape cin ls k :
  filter (λ l, l = ReLU)
    (built_objects latent_dim' num_res_blocks' activation' use_batchnorm'
       use_preactivations' shape cin ls k) = [].
Proof.
  assert (∀ c l, filter (λ l, l = ReLU)
                   (body_objects num_res_blocks' activation' use_batchnorm'
                      use_preactivations' c l) = []) as Hbody.
  { intros c l. revert c. induction l as [| width l IH]; intros c; [done |].
    cbn [body_objects]. rewrite filter_app, IH, app_nil_r.
    unfold stage_objects. rewrite filter_cons_False by done.
    induction (Z.to_nat num_res_blocks') as [| n IHn]; [done |].
    cbn [replicate]. by rewrite filter_cons_False. }
  unfold built_objects, normalisation, final_conv.
  rewrite !filter_app, Hbody.
  destruct use_batchnorm'; by rewrite !filter_cons_False by done.
Qed.

End Activation.

(** C10: when no activation is passed in, the constructor creates one
    [nn.ReLU], at an address the caller's store did not have, and no
    other; [self.activation] is that object, it is the child that follows
    each of the two preprocessing convolutions (after the optional
    normalisation), and it is the activation every residual block of the
    pipeline holds: the children are the preprocessing around that
    [ReLU], then per stage the convolution and [num_res_blocks] residual
    blocks built with [self.activation], then the final convolution. *)
Theorem default_activation_shared latent_dim c hh w width rest
    num_res_blocks use_batchnorm use_preactivations h0 :
  valid_config latent_dim [c; hh; w] (width :: rest) = true →
  ∃ self h,
    __init__ latent_dim [c; hh; w] (width :: rest) num_res_blocks None
      use_batchnorm use_preactivations h0 = OK (self, h)
    ∧ activation self = length h0
    ∧ h !! activation self = Some ReLU
    ∧ filter (λ l, l = ReLU) (drop (length h0) h) = [ReLU]
    ∧ (∃ conv1 norm1 conv2 norm2 others,
         model self = [conv1] ++ norm1 ++ [activation self]
                        ++ [conv2] ++ norm2 ++ [activation self] ++ others
         ∧ resolve h ([conv1] ++ norm1)
           = Some ([Conv2d c width 3 1 1] ++ normalisation use_batchnorm width)
         ∧ resolve h ([conv2] ++ norm2)
           = Some ([Conv2d width width 3 1 1]
                     ++ normalisation use_batchnorm width))
    ∧ (∀ r f a b p,
         r ∈ model self → h !! r = Some (ResidualBlock f a b p) →
         a = activation self)
    ∧ resolve h (model self)
      = Some (preprocessing use_batchnorm c width ReLU
                ++ body_objects num_res_blocks (activation self)
                     use_batchnorm use_preactivations width (width :: rest)
                ++ [Conv2d (default 0 (last (width :: rest))) latent_dim
                      (hh / 2 ^ Z.of_nat (length (width :: rest))) 1 0]).
Proof.
  intros Hv.
  pose proof (init_run latent_dim c hh w width rest num_res_blocks None
                use_batchnorm use_preactivations h0 Hv) as Hrun.
  cbn zeta in Hrun. unfold activation_ref, activation_objects in Hrun.
  cbn [default from_option id] in Hrun.
  eexists _, _. split; [exact Hrun |]. cbn [activation model].
  assert ((h0 ++ [ReLU]) !! length h0 = Some ReLU) as Hrelu
    by (by apply list_lookup_middle).
  split_and!.
  - done.
  - by apply lookup_app_l_Some.
  - rewrite <- app_assoc, drop_app_length, filter_app.
    by rewrite built_objects_no_relu.
  - unfold built_model, built_objects.
    change (default 0 (head (width :: rest))) with width.
    eexists _, _, _, _, _. split; [reflexivity |].
    unfold normalisation, resolve.
    destruct use_batchnorm; cbn [length seq app mapM];
      rewrite ?lookup_new; cbn [lookup list_lookup]; done.
  - intros r f a b p Hr Hlook.
    pose proof (resolve_built latent_dim num_res_blocks (length h0)
                  use_batchnorm use_preactivations [c; hh; w] c width rest
                  (hh / 2 ^ Z.of_nat (length (width :: rest)))
                  (h0 ++ [ReLU]) ReLU Hrelu) as Hres.
    apply mapM_Some_1 in Hres.
    apply list_elem_of_lookup_1 in Hr as [i Hi].
    destruct (Forall2_lookup_l _ _ _ _ _ Hres Hi) as (l & Hl & Hlook').
    rewrite Hlook in Hlook'. injection Hlook' as <-.
    apply list_elem_of_lookup_2 in Hl.
    by apply (pipeline_residual _ _ _ _ _ _ _ ReLU _ _ _ _ _ eq_refl Hl).
  - exact (resolve_built latent_dim num_res_blocks (length h0)
             use_batchnorm use_preactivations [c; hh; w] c width rest
             (hh / 2 ^ Z.of_nat (length (width :: rest)))
             (h0 ++ [ReLU]) ReLU Hrelu).
Qed.

Lemma default_activation_shared_witness :
  ∃ self h,
    __init__ 8 [4; 8; 8] [16; 32] 2 None true true [] = OK (self, h)
    ∧ activation self = 0%nat
    ∧ h !! activation self = Some ReLU
    ∧ filter (λ l, l = ReLU) (drop 0 h) = [ReLU]
    ∧ (∃ conv1 norm1 conv2 norm2 others,
         model self = [conv1] ++ norm1 ++ [activation self]
                        ++ [conv2] ++ norm2 ++ [activation self] ++ others
         ∧ resolve h ([conv1] ++ norm1)
           = Some [Conv2d 4 16 3 1 1; BatchNorm2d 16]
         ∧ resolve h ([conv2] ++ norm2)
           = Some [Conv2d 16 16 3 1 1; BatchNorm2d 16])
    ∧ (∀ r f a b p,
         r ∈ model self → h !! r = Some (ResidualBlock f a b p) →
         a = activation self)
    ∧ resolve h (model self)
      = Some ([Conv2d 4 16 3 1 1; BatchNorm2d 16; ReLU;
               Conv2d 16 16 3 1 1; BatchNorm2d 16; ReLU]
                ++ body_objects 2 (activation self) true true 16 [16; 32]
                ++ [Conv2d 32 8 2 1 0]).
Proof.
  apply (default_activation_shared 8 4 8 8 16 [32] 2 true true []).
  reflexivity.
Defined.

(** ** Turning batch normalisation off *)

Lemma filter_none {A} (P : A → Prop) `{∀ x, Decision (P x)} (l : list A) :
  (∀ x, x ∈ l → ¬ P x) → filter P l = [].
Proof.
  induction l as [| x l IH]; intros Hl; [done |].
  rewrite filter_cons_False by (apply Hl; left).
  apply IH. intros y Hy. apply Hl. by right.
Qed.

Lemma batchnorm2d_forward_ok n x y : batchnorm2d_forward n x = OK y → y = x.
Proof.
  unfold batchnorm2d_forward. intros Hy.
  repeat case_match; by simplify_eq.
Qed.

Lemma layer_forward_without_batchnorm l x :
  layer_forward (without_batchnorm l) x = layer_forward l x.
Proof. by destruct l. Qed.

(** Dropping the normalisation stages of any pipeline that runs leaves a
    pipeline that runs through the same shapes. *)
Lemma run_without_batchnorm stages x tr :
  run stages x = OK tr →
  run (without_batchnorm <$> filter (λ l, is_batchnorm l = false) stages) x
  = OK (prod_map without_batchnorm id
          <$> filter (λ p, is_batchnorm p.1 = false) tr).
Proof.
  revert x tr. induction stages as [| l stages IH]; intros x tr Hrun.
  - cbn in Hrun. by simplify_eq.
  - cbn [run] in Hrun.
    destruct (layer_forward l x) as [y |] eqn:Hl; [| done].
    cbn [mbind result_bind] in Hrun.
    destruct (run stages y) as [tl |] eqn:Htl; [| done].
    cbn [mbind result_bind] in Hrun. simplify_eq.
    destruct (is_batchnorm l) eqn:Hbn.
    + rewrite !filter_cons_False by (cbn; congruence).
      destruct l; try done. cbn [layer_forward] in Hl.
      apply batchnorm2d_forward_ok in Hl as ->. by apply IH.
    + rewrite !filter_cons_True by done.
      cbn [fmap list_fmap run]. rewrite layer_forward_without_batchnorm, Hl.
      cbn [mbind result_bind]. by rewrite (IH _ _ Htl).
Qed.

(** [nn.Sequential] on the children is [run] on the modules behind them. *)
Lemma sequential_run h children stages x :
  resolve h children = Some stages →
  sequential h children x = (λ tr, default x (last tr.*2)) <$> run stages x.
Proof.
  intros Hres. apply mapM_Some_1 in Hres. revert x.
  induction Hres as [| r l children stages Hr Hres IH]; intros x; [done |].
  cbn [sequential run]. unfold call. rewrite Hr.
  destruct (layer_forward l x) as [y |]; [| done].
  cbn [mbind result_bind]. rewrite IH.
  destruct (run stages y) as [tl |]; [| done].
  cbn [fmap result_fmap mbind result_bind]. f_equal.
  rewrite fmap_cons, last_cons. cbn [snd].
  by destruct (last tl.*2).
Qed.

Section Batchnorm_flag.

Variable latent_dim' : Z.
Variable num_res_blocks' : Z.
Variable activation' : ref.
Variable use_preactivations' : bool.

Lemma body_objects_without_batchnorm cin ls :
  without_batchnorm
    <$> filter (λ l, is_batchnorm l = false)
          (body_objects num_res_blocks' activation' true
             use_preactivations' cin ls)
  = body_objects num_res_blocks' activation' false use_preactivations'
      cin ls.
Proof.
  revert cin. induction ls as [| width ls IH]; intros cin; [done |].
  cbn [body_objects]. rewrite filter_app, fmap_app, IH. f_equal.
  unfold stage_objects. rewrite filter_cons_True by done.
  rewrite fmap_cons. cbn [without_batchnorm]. f_equal.
  induction (Z.to_nat num_res_blocks') as [| n IHn]; [done |].
  cbn [replicate]. rewrite filter_cons_True by done.
  by rewrite fmap_cons, IHn.
Qed.

Lemma body_objects_no_batchnorm b cin ls :
  filter (λ l, is_batchnorm l = true)
    (body_objects num_res_blocks' activation' b use_preactivations' cin ls)
  = [].
Proof.
  apply filter_none. intros l Hl.
  by apply body_objects_elem in Hl as [(i & o & ->) | (f & ->)].
Qed.

Lemma pipeline_without_batchnorm cin ls act k :
  is_activation act = true →
  without_batchnorm
    <$> filter (λ l, is_batchnorm l = false)
          (pipeline latent_dim' num_res_blocks' activation' true
             use_preactivations' cin ls act k)
  = pipeline latent_dim' num_res_blocks' activation' false
      use_preactivations' cin ls act k.
Proof.
  intros Hact. unfold pipeline.
  rewrite !filter_app, !fmap_app, body_objects_without_batchnorm.
  f_equal. by destruct act.
Qed.

End Batchnorm_flag.

(** C7, as the code has it: on a valid configuration, building with
    [use_batchnorm] off instead of on gives the same pipeline with the two
    normalisation stages of the preprocessing block removed and with the
    flag of every residual block cleared along with them; convolutions and
    activations are the same, in the same order, and whenever the
    normalised pipeline runs on an input the other pipeline runs on it
    through the same shapes. *)
Theorem batchnorm_flag_effect latent_dim c hh w width rest num_res_blocks
    activation_arg use_preactivations h0 act :
  valid_config latent_dim [c; hh; w] (width :: rest) = true →
  activation_module activation_arg h0 = Some act →
  is_activation act = true →
  let build use_batchnorm :=
    __init__ latent_dim [c; hh; w] (width :: rest) num_res_blocks
      activation_arg use_batchnorm use_preactivations h0 in
  ∃ normalised plain,
    stages_of (build true) = Some normalised
    ∧ stages_of (build false) = Some plain
    ∧ plain
      = without_batchnorm
          <$> filter (λ l, is_batchnorm l = false) normalised
    ∧ take 6 normalised
      = [Conv2d c width 3 1 1; BatchNorm2d width; act;
         Conv2d width width 3 1 1; BatchNorm2d width; act]
    ∧ filter (λ l, is_batchnorm l = true) (drop 6 normalised) = []
    ∧ ∀ x tr,
        run normalised x = OK tr →
        run plain x
        = OK (prod_map without_batchnorm id
                <$> filter (λ p, is_batchnorm p.1 = false) tr).
Proof.
  intros Hv Hact Hkind build. subst build.
  destruct (init_pipeline _ _ _ _ _ _ num_res_blocks activation_arg
              true use_preactivations h0 act Hv Hact)
    as (self1 & h1 & Hinit1 & _ & _ & _ & Hres1).
  destruct (init_pipeline _ _ _ _ _ _ num_res_blocks activation_arg
              false use_preactivations h0 act Hv Hact)
    as (self2 & h2 & Hinit2 & _ & _ & _ & Hres2).
  eexists _, _. rewrite Hinit1, Hinit2. cbn [stages_of].
  split_and!; [exact Hres1 | exact Hres2 | | done | |].
  - symmetry. by apply pipeline_without_batchnorm.
  - unfold pipeline. cbn [preprocessing normalisation app drop].
    rewrite drop_0, filter_app, body_objects_no_batchnorm.
    by rewrite filter_cons_False.
  - intros x tr Hrun.
    rewrite <- (pipeline_without_batchnorm _ _ _ _ _ _ _ _ Hkind).
    by apply run_without_batchnorm.
Qed.

Lemma batchnorm_flag_effect_witness :
  ∃ normalised plain,
    stages_of (__init__ 8 [4; 8; 8] [16] 1 None true true [])
      = Some normalised
    ∧ stages_of (__init__ 8 [4; 8; 8] [16] 1 None false true [])
      = Some plain
    ∧ plain
      = without_batchnorm
          <$> filter (λ l, is_batchnorm l = false) normalised
    ∧ take 6 normalised
      = [Conv2d 4 16 3 1 1; BatchNorm2d 16; ReLU;
         Conv2d 16 16 3 1 1; BatchNorm2d 16; ReLU]
    ∧ filter (λ l, is_batchnorm l = true) (drop 6 normalised) = []
    ∧ ∀ x tr,
        run normalised x = OK tr →
        run plain x
        = OK (prod_map without_batchnorm id
                <$> filter (λ p, is_batchnorm p.1 = false) tr).
Proof.
  apply (batchnorm_flag_effect 8 4 8 8 16 [] 1 None true [] ReLU);
    reflexivity.
Defined.

(** C7 fails as stated: with one stage and one residual block, taking
    the normalisation stages out of the pipeline built with
    [use_batchnorm] on does not give the pipeline built with it off,
    because the residual block was built with the flag as well. *)
Lemma batchnorm_flag_reaches_residual_blocks :
  filter (λ l, is_batchnorm l = false)
    <$> stages_of (__init__ 8 [4; 8; 8] [16] 1 None true true [])
  ≠ stages_of (__init__ 8 [4; 8; 8] [16] 1 None false true []).
Proof. vm_compute. discriminate. Qed.

(** ** The forward pass *)

Lemma view_triple x c hh w :
  0 < c → 0 < hh → 0 < w →
  view x [c; hh; w]
  = if numel x =? c * hh * w then OK [c; hh; w] else Raise RuntimeError.
Proof.
  intros Hc Hh Hw. unfold view.
  assert (existsb (λ d, d <? -1) [c; hh; w] = false) as ->.
  { cbn [existsb]. rewrite !orb_false_r, !orb_false_iff, !Z.ltb_ge. lia. }
  rewrite !filter_cons_True by lia. rewrite filter_nil.
  cbn [length Nat.sub]. change (numel [c; hh; w]) with (c * (hh * (w * 1))).
  destruct (Z.eqb_spec (c * (hh * (w * 1))) (numel x)),
           (Z.eqb_spec (numel x) (c * hh * w)); try done; lia.
Qed.

(** C4: in a decoder built from a valid configuration, [init_linear] is
    the dense projection from [latent_dim] features to
    [channels * height * width] features with a bias; [forward] applies it
    first, then views the result as exactly (channels, height, width),
    three axes with no batch axis in front (which the element count allows
    only when the projection produced one image), and it is this tensor
    that runs through the stages; its first axis, the channel count, is
    the row count of the final view. *)
Theorem forward_projects_then_reshapes latent_dim c hh w width rest
    num_res_blocks activation_arg use_batchnorm use_preactivations h0 :
  valid_config latent_dim [c; hh; w] (width :: rest) = true →
  ∃ self h,
    __init__ latent_dim [c; hh; w] (width :: rest) num_res_blocks
      activation_arg use_batchnorm use_preactivations h0 = OK (self, h)
    ∧ h !! init_linear self = Some (Linear latent_dim (c * hh * w) true)
    ∧ (∀ b, call h (init_linear self) [b; latent_dim] = OK [b; c * hh * w])
    ∧ ∀ batch,
        forward h self batch
        = (projected ← call h (init_linear self) batch;
           image ← (if numel projected =? c * hh * w
                    then OK [c; hh; w] else Raise RuntimeError);
           out ← sequential h (model self) image;
           view out [c; -1]).
Proof.
  intros Hv.
  pose proof (init_run latent_dim c hh w width rest num_res_blocks
                activation_arg use_batchnorm use_preactivations h0 Hv) as Hrun.
  cbn zeta in Hrun.
  apply valid_config_inv in Hv as (Hl & Hc & Hh & Hw & Hp & _).
  eexists _, _. split; [exact Hrun |].
  cbn [init_linear model init_shape].
  assert (∀ objs, ((h0 ++ activation_objects activation_arg)
                   ++ Linear latent_dim (np_prod [c; hh; w]) true :: objs)
                  !! length (h0 ++ activation_objects activation_arg)
                  = Some (Linear latent_dim (c * hh * w) true)) as Hlin.
  { intros objs. rewrite <- np_prod_3 by nia. by apply list_lookup_middle. }
  unfold built_objects. cbn [app].
  split_and!.
  - apply Hlin.
  - intros b. unfold call. rewrite Hlin. cbn [layer_forward].
    unfold linear_forward. cbn [last removelast app].
    by rewrite Z.eqb_refl.
  - intros batch. unfold forward. cbn [init_linear model init_shape].
    destruct (call _ _ batch) as [projected |]; [| done].
    cbn [mbind result_bind]. rewrite view_triple by lia.
    destruct (numel projected =? c * hh * w); [| done].
    cbn [mbind result_bind].
    by destruct (sequential _ _ _) as [out |].
Qed.

Lemma forward_projects_then_reshapes_witness :
  ∃ self h,
    __init__ 8 [4; 8; 8] [16; 32] 2 None false true [] = OK (self, h)
    ∧ h !! init_linear self = Some (Linear 8 (4 * 8 * 8) true)
    ∧ (∀ b, call h (init_linear self) [b; 8] = OK [b; 4 * 8 * 8])
    ∧ ∀ batch,
        forward h self batch
        = (projected ← call h (init_linear self) batch;
           image ← (if numel projected =? 4 * 8 * 8
                    then OK [4; 8; 8] else Raise RuntimeError);
           out ← sequential h (model self) image;
           view out [4; -1]).
Proof.
  apply (forward_projects_then_reshapes 8 4 8 8 16 [32] 2 None false true []).
  reflexivity.
Defined.

Lemma view_rows out c y :
  0 < c → view out [c; -1] = OK y → y = [c; numel out / c].
Proof.
  intros Hc. unfold view.
  assert (existsb (λ d, d <? -1) [c; -1] = false) as ->.
  { cbn [existsb]. by destruct (Z.ltb_spec c (-1)); [lia |]. }
  rewrite filter_cons_True by lia. rewrite filter_cons_False by (cbn; lia).
  rewrite filter_nil. cbn [length Nat.sub].
  change (numel [c]) with (c * 1). rewrite Z.mul_1_r.
  destruct (_ || _); [done |]. intros Hy. simplify_eq.
  cbn [fmap list_fmap]. destruct (Z.eqb_spec c (-1)); [lia | done].
Qed.

(** A constructor call that returns was given sizes torch can take. *)
Lemma blocks_ok_sizes nres a bn pre ls st h r :
  blocks nres a bn pre ls st h = OK r →
  forallb (λ l, l <? 2 ^ 63) ls = true.
Proof.
  revert st h. induction ls as [| layer ls IH]; intros [cin ops] h H; [done |].
  cbn [blocks] in H. step H; [| done].
  cbn [forallb]. rewrite (IH _ _ H), andb_true_r.
  unfold block in E. step E; [| done].
  apply new_ok_inv in E0. cbn [ctor_ok] in E0. unfold size_ok in E0. lia.
Qed.

Lemma init_ok_valid latent_dim init_shape ls num_res_blocks activation_arg
    use_batchnorm use_preactivations h0 self h :
  positive_config latent_dim init_shape ls = true →
  __init__ latent_dim init_shape ls num_res_blocks activation_arg
    use_batchnorm use_preactivations h0 = OK (self, h) →
  valid_config latent_dim init_shape ls = true.
Proof.
  intros Hpos H. unfold valid_config. rewrite Hpos. cbn [andb].
  unfold __init__ in H.
  step H; [| done]. step H; [| done]. clear E E0.
  unfold init_body in H.
  step H; [| done]. apply new_ok_inv in E.
  do 8 (step H; [| done]). step H; [| done].
  apply blocks_ok_sizes in E8. rewrite E8, andb_true_r.
  cbn [ctor_ok] in E. unfold size_ok in E. lia.
Qed.

(** X11: whatever the input, a decoder built with [use_batchnorm] on raises in
    [forward]: the image reaches the first normalisation with three axes
    (when the constructor, the projection or the view has not raised
    already). *)
Lemma forward_with_batchnorm_raises latent_dim c hh w width rest
    num_res_blocks activation_arg use_preactivations h0 x :
  positive_config latent_dim [c; hh; w] (width :: rest) = true →
  ∃ e, build_and_run latent_dim [c; hh; w] (width :: rest) num_res_blocks
         activation_arg true use_preactivations h0 x = Raise e.
Proof.
  intros Hpos. unfold build_and_run.
  destruct (__init__ _ _ _ _ _ _ _ _) as [[self h] | e] eqn:Hinit;
    [| by exists e].
  pose proof (init_ok_valid _ _ _ _ _ _ _ _ _ _ Hpos Hinit) as Hv.
  rewrite (init_run _ _ _ _ _ _ _ _ _ _ _ Hv) in Hinit.
  injection Hinit as <- <-.
  apply valid_config_inv in Hv as (Hl & Hc & Hh & Hw & Hp & Hls).
  apply Forall_inv in Hls.
  cbn [mbind result_bind]. unfold forward. cbn [init_linear model init_shape].
  destruct (call _ _ x) as [projected | e]; [| by exists e].
  cbn [mbind result_bind]. rewrite view_triple by lia.
  destruct (numel projected =? c * hh * w); [| by eexists].
  cbn [mbind result_bind].
  unfold built_model, built_objects, normalisation.
  change (default 0 (head (width :: rest))) with width.
  cbn [length seq app sequential]. unfold call.
  rewrite !lookup_new. cbn [lookup list_lookup layer_forward].
  unfold conv2d_forward. rewrite Z.eqb_refl.
  assert ((0 <? width) = true) as -> by (apply Z.ltb_lt; lia).
  assert ((3 <=? hh + 2 * 1) = true) as -> by (apply Z.leb_le; lia).
  assert ((3 <=? w + 2 * 1) = true) as -> by (apply Z.leb_le; lia).
  cbn [andb Z.ltb Z.compare app mbind result_bind batchnorm2d_forward].
  by eexists.
Qed.

(** X12: when [forward] does return, the result has [init_shape[0]] rows, not
    one row per input vector. *)
Lemma forward_rows latent_dim c hh w width rest num_res_blocks
    activation_arg use_batchnorm use_preactivations h0 x y :
  positive_config latent_dim [c; hh; w] (width :: rest) = true →
  build_and_run latent_dim [c; hh; w] (width :: rest) num_res_blocks
    activation_arg use_batchnorm use_preactivations h0 x = OK y →
  ∃ m, y = [c; m].
Proof.
  intros Hpos. unfold build_and_run.
  destruct (__init__ _ _ _ _ _ _ _ _) as [[self h] |] eqn:Hinit; [| done].
  pose proof (init_ok_valid _ _ _ _ _ _ _ _ _ _ Hpos Hinit) as Hv.
  rewrite (init_run _ _ _ _ _ _ _ _ _ _ _ Hv) in Hinit.
  injection Hinit as <- <-.
  apply valid_config_inv in Hv as (Hl & Hc & Hh & Hw & Hp & _).
  cbn [mbind result_bind]. unfold forward. cbn [init_linear model init_shape].
  destruct (call _ _ x) as [projected |]; [| done].
  cbn [mbind result_bind]. rewrite view_triple by lia.
  destruct (numel projected =? c * hh * w); [| done].
  cbn [mbind result_bind].
  destruct (sequential _ _ _) as [out |]; [| done].
  cbn [mbind result_bind len]. intros Hy.
  apply view_rows in Hy as ->; [by eexists | done].
Qed.

(** C3: on the configuration [latent_dim = 8], [init_shape = (4, 8, 8)],
    [layers = [16, 32]], two residual blocks per stage, and an input of
    shape (1, 8), [forward] does not return a tensor of shape (1, 8).
    With the default [use_batchnorm = True] the first normalisation is
    handed the three-axis image and raises; with the flag off the result
    has [init_shape[0]] rows, shape (4, 2). *)
Theorem forward_single_input_shape :
  build_and_run 8 [4; 8; 8] [16; 32] 2 None true true [] [1; 8]
    = Raise ValueError
  ∧ build_and_run 8 [4; 8; 8] [16; 32] 2 None false true [] [1; 8]
    = OK [4; 2].
Proof. split; reflexivity. Qed.

(** * Further properties of the constructor and of the forward pass *)

(** ** Shapes through the assembled stages *)

Lemma sequential_through h children stages x :
  resolve h children = Some stages →
  sequential h children x = through stages x.
Proof.
  intros Hres. apply mapM_Some_1 in Hres. revert x.
  induction Hres as [| r l children stages Hr Hres IH]; intros x; [done |].
  cbn [sequential through]. unfold call. rewrite Hr.
  destruct (layer_forward l x) as [y |]; [| done].
  cbn [mbind result_bind]. apply IH.
Qed.

Lemma through_app l1 l2 x :
  through (l1 ++ l2) x = through l1 x ≫= through l2.
Proof.
  revert x. induction l1 as [| l l1 IH]; intros x; [done |].
  cbn [app through]. destruct (layer_forward l x) as [y |]; [| done].
  cbn [mbind result_bind]. apply IH.
Qed.

(** A convolution on an image with or without one batch axis in front. *)
Lemma conv2d_forward_ok (bd : list Z) cin cout k s p hh w :
  (length bd ≤ 1)%nat →
  0 < cout → 0 < k → 0 < s → k <= hh + 2 * p → k <= w + 2 * p →
  conv2d_forward cin cout k s p (bd ++ [cin; hh; w])
  = OK (bd ++ [cout; conv_out hh k s p; conv_out w k s p]).
Proof.
  intros Hbd Hout Hk Hs Hh Hw. unfold conv2d_forward.
  apply Z.ltb_lt in Hout, Hk, Hs. apply Z.leb_le in Hh, Hw.
  destruct bd as [| n [| ? ?]]; cbn [app length] in *; [| | lia];
    by rewrite Z.eqb_refl, Hout, Hk, Hs, Hh, Hw.
Qed.

Lemma conv_out_same size : conv_out size 3 1 1 = size.
Proof. unfold conv_out. rewrite Z.div_1_r. lia. Qed.

Lemma conv_out_floor_half size : conv_out size 2 2 0 = size / 2.
Proof.
  unfold conv_out.
  replace (size + 2 * 0 - (2 - 1) - 1) with (size + (-1) * 2) by lia.
  rewrite Z.div_add by lia. lia.
Qed.

Lemma conv_out_collapse size k : conv_out size k 1 0 = size - k + 1.
Proof. unfold conv_out. rewrite Z.div_1_r. lia. Qed.

Lemma through_residual_blocks n f a b p x :
  through (replicate n (ResidualBlock f a b p)) x = OK x.
Proof. induction n as [| n IH]; [done |]. cbn. apply IH. Qed.

Section Shapes.

Variable latent_dim' : Z.
Variable num_res_blocks' : Z.
Variable activation' : ref.
Variable use_batchnorm' : bool.
Variable use_preactivations' : bool.

Local Abbreviation body := (body_objects num_res_blocks' activation'
                              use_batchnorm' use_preactivations').

(** Every stage halves both extents, rounding down. *)
Lemma through_body (bd : list Z) ls cin hh w :
  (length bd ≤ 1)%nat →
  Forall (λ l, 0 < l) ls →
  2 ^ Z.of_nat (length ls) <= hh → 2 ^ Z.of_nat (length ls) <= w →
  through (body cin ls) (bd ++ [cin; hh; w])
  = OK (bd ++ [default cin (last ls);
               hh / 2 ^ Z.of_nat (length ls);
               w / 2 ^ Z.of_nat (length ls)]).
Proof.
  intros Hbd Hls. revert cin hh w.
  induction Hls as [| width ls Hwidth Hls IH]; intros cin hh w Hh Hw.
  - cbn. by rewrite !Z.div_1_r.
  - cbn [length] in Hh, Hw. rewrite Nat2Z.inj_succ, Z.pow_succ_r in Hh, Hw by lia.
    assert (0 < 2 ^ Z.of_nat (length ls)) as Hp
      by (apply Z.pow_pos_nonneg; lia).
    cbn [body_objects]. unfold stage_objects.
    cbn [app through layer_forward].
    rewrite conv2d_forward_ok by (done || lia).
    cbn [mbind result_bind]. rewrite through_app, through_residual_blocks.
    cbn [mbind result_bind]. rewrite !conv_out_floor_half.
    rewrite IH by (apply Z.div_le_lower_bound; lia).
    cbn [length]. rewrite Nat2Z.inj_succ, Z.pow_succ_r by lia.
    rewrite !Z.div_div by lia.
    rewrite last_cons. by destruct (last ls).
Qed.

(** The two preprocessing convolutions keep both extents; the
    normalisation, when present, wants the batch axis. *)
Lemma through_preprocessing (bd : list Z) cin width act hh w :
  (length bd ≤ 1)%nat →
  is_activation act = true →
  0 < width → 0 < hh → 0 < w →
  (use_batchnorm' = true → ∃ n, bd = [n] ∧ n * hh * w ≠ 1) →
  through (preprocessing use_batchnorm' cin width act) (bd ++ [cin; hh; w])
  = OK (bd ++ [width; hh; w]).
Proof.
  intros Hbd Hact Hwidth Hh Hw Hbn.
  assert (∀ x, layer_forward act x = OK x) as Hid by (by destruct act).
  assert (through (normalisation use_batchnorm' width) (bd ++ [width; hh; w])
          = OK (bd ++ [width; hh; w])) as Hnorm.
  { unfold normalisation. destruct use_batchnorm'; [| done].
    destruct Hbn as (n & -> & Hn); [done |].
    cbn [app through layer_forward batchnorm2d_forward].
    destruct (Z.eqb_spec (n * hh * w) 1); [done |].
    by rewrite Z.eqb_refl. }
  unfold preprocessing. cbn [app through layer_forward].
  rewrite conv2d_forward_ok, !conv_out_same by (done || lia).
  cbn [mbind result_bind]. rewrite through_app, Hnorm.
  cbn [mbind result_bind through layer_forward]. rewrite Hid.
  cbn [mbind result_bind].
  rewrite conv2d_forward_ok, !conv_out_same by (done || lia).
  cbn [mbind result_bind]. rewrite through_app, Hnorm.
  cbn [mbind result_bind through layer_forward]. by rewrite Hid.
Qed.

Lemma through_pipeline (bd : list Z) cin width rest act hh w :
  (length bd ≤ 1)%nat →
  is_activation act = true →
  0 < latent_dim' → Forall (λ l, 0 < l) (width :: rest) →
  2 ^ Z.of_nat (length (width :: rest)) <= hh → hh <= w →
  (use_batchnorm' = true → ∃ n, bd = [n] ∧ n * hh * w ≠ 1) →
  let k := hh / 2 ^ Z.of_nat (length (width :: rest)) in
  through (pipeline latent_dim' num_res_blocks' activation' use_batchnorm'
             use_preactivations' cin (width :: rest) act k)
    (bd ++ [cin; hh; w])
  = OK (bd ++ [latent_dim'; 1;
               w / 2 ^ Z.of_nat (length (width :: rest)) - k + 1]).
Proof.
  intros Hbd Hact Hlat Hls Hh Hhw Hbn k.
  pose proof (Forall_inv Hls) as Hwidth. cbv beta in Hwidth.
  set (p := 2 ^ Z.of_nat (length (width :: rest))) in *.
  assert (0 < p) as Hp by (apply Z.pow_pos_nonneg; lia).
  assert (1 <= k) as Hk by (apply Z.div_le_lower_bound; lia).
  assert (k <= w / p) as Hkw by (apply Z.div_le_mono; lia).
  unfold pipeline. change (default 0 (head (width :: rest))) with width.
  rewrite through_app, through_preprocessing by (done || lia).
  cbn [mbind result_bind].
  rewrite through_app, through_body by (done || lia).
  cbn [mbind result_bind]. fold p. fold k.
  unfold final_conv. cbn [through layer_forward].
  rewrite (last_default_cons width rest width 0).
  rewrite conv2d_forward_ok by (done || lia).
  cbn [mbind result_bind]. rewrite !conv_out_collapse.
  by replace (k - k + 1) with 1 by lia.
Qed.

End Shapes.

(** ** What the constructor can raise *)

Lemma new_raise l h e :
  new l h = Raise e → e = RuntimeError ∨ e = TypeError.
Proof.
  unfold new, ctor_exn. destruct (ctor_ok l); [done |].
  destruct (forallb _ _); intros; simplify_eq; tauto.
Qed.

Lemma lift_getitem_raise {A} (l : list A) i h e :
  lift (getitem l i) h = Raise e → e = IndexError.
Proof. unfold lift, getitem. destruct (l !! i); congruence. Qed.

Lemma blocks_raise nres a bn pre ls st h e :
  blocks nres a bn pre ls st h = Raise e →
  e = RuntimeError ∨ e = TypeError.
Proof.
  revert st h. induction ls as [| layer ls IH]; intros [cin ops] h H.
  - done.
  - cbn [blocks] in H. step H; [by eapply IH |].
    simplify_eq. unfold block in E. step E.
    + rewrite bind_run, res_blocks_run in E. done.
    + simplify_eq. by eapply new_raise.
Qed.

Lemma maybe_batchnorm_raise ls bn ops h e :
  maybe_batchnorm ls bn ops h = Raise e →
  e = IndexError ∨ e = RuntimeError ∨ e = TypeError.
Proof.
  unfold maybe_batchnorm. destruct bn; [| done]. intros H.
  step H.
  - step H; [done |]. simplify_eq. right. by eapply new_raise.
  - simplify_eq. left. by eapply lift_getitem_raise.
Qed.

(** The divisor [2 ** len(layers)] is never zero. *)
Lemma py_truediv_pow2_raise a n e :
  0 <= n → py_truediv a (2 ^ n) = Raise e → e = OverflowError.
Proof.
  intros Hn. unfold py_truediv.
  assert (0 < 2 ^ n) by (by apply Z.pow_pos_nonneg).
  destruct (Z.eqb_spec (2 ^ n) 0); [lia |].
  destruct (a =? 0); [done |].
  unfold truediv_pos. destruct (scale _ _ _) as [s1 s2].
  destruct (_ <=? _); cbn; congruence.
Qed.

Lemma lift_raise {A} (r : result A) h e : lift r h = Raise e → r = Raise e.
Proof. unfold lift. destruct r; congruence. Qed.

Lemma lift_ok {A} (r : result A) h a h' :
  lift r h = OK (a, h') → r = OK a ∧ h' = h.
Proof. unfold lift. destruct r; [| done]. intros. by simplify_eq. Qed.

Lemma init_body_raise latent_dim shape ls nres cin a bn pre h e :
  init_body latent_dim shape ls nres cin a bn pre h = Raise e →
  e = IndexError ∨ e = RuntimeError ∨ e = TypeError ∨ e = OverflowError.
Proof.
  unfold init_body. intros H.
  step H; [| simplify_eq; apply new_raise in E; tauto].
  step H; [| simplify_eq; left; by eapply lift_getitem_raise].
  step H; [| simplify_eq; apply new_raise in E1; tauto].
  step H; [| simplify_eq; apply maybe_batchnorm_raise in E2; tauto].
  step H; [| simplify_eq; left; by eapply lift_getitem_raise].
  step H; [| simplify_eq; left; by eapply lift_getitem_raise].
  step H; [| simplify_eq; apply new_raise in E5; tauto].
  step H; [| simplify_eq; apply maybe_batchnorm_raise in E6; tauto].
  step H; [| simplify_eq; left; by eapply lift_getitem_raise].
  step H; [| simplify_eq; apply blocks_raise in E8; tauto].
  destruct p as [cin' ops'].
  step H; [| simplify_eq; left; by eapply lift_getitem_raise].
  step H.
  - step H; [done |]. simplify_eq. apply new_raise in E11. tauto.
  - simplify_eq. right; right; right. apply lift_raise in E10.
    eapply py_truediv_pow2_raise; [| done]. lia.
Qed.

(** X1: whatever the arguments, the constructor raises nothing but
    [IndexError] (a sequence too short), [RuntimeError] (a negative size
    handed to a module), [TypeError] (a size that is no [int64]) and
    [OverflowError] (a height too large for a float); in particular the
    division by [2 ** len(layers)] never divides by zero. *)
Theorem init_raises_only latent_dim init_shape layers num_res_blocks
    activation_arg use_batchnorm use_preactivations h0 e :
  __init__ latent_dim init_shape layers num_res_blocks activation_arg
    use_batchnorm use_preactivations h0 = Raise e →
  e = IndexError ∨ e = RuntimeError ∨ e = TypeError ∨ e = OverflowError.
Proof.
  unfold __init__. intros H.
  step H; [| simplify_eq; left; by eapply lift_getitem_raise].
  step H; [by eapply init_body_raise |].
  simplify_eq. destruct activation_arg; [done |].
  apply new_raise in E0. tauto.
Qed.

Lemma init_raises_only_witness :
  TypeError = IndexError ∨ TypeError = RuntimeError
  ∨ TypeError = TypeError ∨ TypeError = OverflowError.
Proof.
  apply (init_raises_only (2 ^ 63) [4; 8; 8] [16] 2 None true true []
           TypeError).
  reflexivity.
Defined.

(** X2: an [init_shape] with fewer than two entries never gives a decoder:
    [init_shape[0]] or, after every stage has been built,
    [init_shape[1]] is out of range. *)
Theorem init_short_shape_raises latent_dim init_shape layers num_res_blocks
    activation_arg use_batchnorm use_preactivations h0 :
  (length init_shape < 2)%nat →
  ∃ e, __init__ latent_dim init_shape layers num_res_blocks activation_arg
         use_batchnorm use_preactivations h0 = Raise e.
Proof.
  intros Hlen.
  destruct (__init__ _ _ _ _ _ _ _ _) as [[self h] | e] eqn:H; [| by eexists].
  exfalso. unfold __init__ in H.
  step H; [| done]. apply lift_ok in E as [Hc ->].
  step H; [| done]. clear E.
  unfold init_body in H.
  do 10 (step H; [| done]). destruct p as [cin' ops'].
  step H; [| done]. apply lift_ok in E9 as [Hh _].
  unfold getitem in Hh.
  destruct init_shape as [| c [| hh shape]]; cbn in Hlen, Hh; [done.. | lia].
Qed.

Lemma init_short_shape_raises_witness :
  ∃ e, __init__ 8 [4] [16] 2 None true true [] = Raise e.
Proof.
  apply (init_short_shape_raises 8 [4] [16] 2 None true true []).
  cbn. lia.
Defined.

(** ** The children of the pipeline as objects *)

Lemma filter_seq_above (a : ref) (j n : nat) :
  (a < j)%nat → filter (λ r : ref, r ≠ a) (seq j n) = seq j n.
Proof.
  revert j. induction n as [| n IH]; intros j Hj; [done |].
  cbn [seq]. rewrite filter_cons_True by lia. f_equal. apply IH. lia.
Qed.

Lemma filter_split_length (l : list ref) (a : ref) :
  (length (filter (λ r : ref, r = a) l)
   + length (filter (λ r : ref, r ≠ a) l))%nat = length l.
Proof.
  rewrite <- length_app. apply Permutation_length.
  apply (filter_app_complement (λ r : ref, r = a)).
Qed.

Lemma activation_module_lt activation_arg h0 act :
  activation_module activation_arg h0 = Some act →
  (activation_ref activation_arg h0
   < length (h0 ++ activation_objects activation_arg))%nat.
Proof. unfold activation_module. apply lookup_lt_Some. Qed.

Lemma built_model_length nres a bn pre p ls :
  length (built_model nres a bn pre p ls)
  = ((if bn then 6 else 4) + length ls * S (Z.to_nat nres) + 1)%nat.
Proof.
  unfold built_model, normalisation.
  destruct bn; cbn [length app seq];
    rewrite ?length_app, ?length_seq, length_body_objects; cbn [length]; lia.
Qed.

Lemma built_model_others nres a bn pre p ls :
  (a < S p)%nat →
  filter (λ r : ref, r ≠ a) (built_model nres a bn pre p ls)
  = seq (S p) (length (built_model nres a bn pre p ls) - 2).
Proof.
  intros Ha. rewrite built_model_length.
  unfold built_model, normalisation.
  set (n := length (body_objects _ _ _ _ _ ls)).
  assert (n = (length ls * S (Z.to_nat nres))%nat) as <-
    by apply length_body_objects.
  destruct bn; cbn [length app seq].
  - rewrite !filter_cons_True by lia.
    rewrite (filter_cons_False _ a) by (intros Hne; by apply Hne).
    rewrite !filter_cons_True by lia.
    rewrite (filter_cons_False _ a) by (intros Hne; by apply Hne).
    rewrite filter_cons_True, filter_seq_above by lia.
    replace (6 + n + 1 - 2)%nat with (S (S (S (S (S n))))) by lia.
    cbn [seq]. repeat (f_equal; try lia).
  - rewrite !filter_cons_True by lia.
    rewrite (filter_cons_False _ a) by (intros Hne; by apply Hne).
    rewrite !filter_cons_True by lia.
    rewrite (filter_cons_False _ a) by (intros Hne; by apply Hne).
    rewrite filter_cons_True, filter_seq_above by lia.
    replace (4 + n + 1 - 2)%nat with (S (S (S n))) by lia.
    cbn [seq]. repeat (f_equal; try lia).
Qed.

(** X3: the [nn.Sequential] has two preprocessing convolutions with their
    activation (and normalisation when asked for), one convolution and
    [num_res_blocks] residual blocks per entry of [layers], and the final
    convolution: [4 or 6 + len(layers) * (1 + num_res_blocks) + 1]
    children. *)
Theorem model_length latent_dim c hh w width rest num_res_blocks
    activation_arg use_batchnorm use_preactivations h0 :
  valid_config latent_dim [c; hh; w] (width :: rest) = true →
  ∃ self h,
    __init__ latent_dim [c; hh; w] (width :: rest) num_res_blocks
      activation_arg use_batchnorm use_preactivations h0 = OK (self, h)
    ∧ length (model self)
      = ((if use_batchnorm then 6 else 4)
         + length (width :: rest) * S (Z.to_nat num_res_blocks) + 1)%nat.
Proof.
  intros Hv. eexists _, _. split; [by apply init_run |].
  cbn [model]. apply built_model_length.
Qed.

Lemma model_length_witness :
  ∃ self h,
    __init__ 8 [4; 8; 8] [16; 32] 2 None true true [] = OK (self, h)
    ∧ length (model self) = 13%nat.
Proof.
  apply (model_length 8 4 8 8 16 [32] 2 None true true []). reflexivity.
Defined.

(** X4: no module is shared between stages except the activation: the other
    children are pairwise distinct objects, created by this constructor
    call after [self.init_linear], in the order of the pipeline; the
    activation object is a child exactly twice. *)
Theorem children_are_fresh_objects latent_dim c hh w width rest
    num_res_blocks activation_arg use_batchnorm use_preactivations h0 act :
  valid_config latent_dim [c; hh; w] (width :: rest) = true →
  activation_module activation_arg h0 = Some act →
  ∃ self h,
    __init__ latent_dim [c; hh; w] (width :: rest) num_res_blocks
      activation_arg use_batchnorm use_preactivations h0 = OK (self, h)
    ∧ (length h0 ≤ init_linear self)%nat
    ∧ filter (λ r, r ≠ activation self) (model self)
      = seq (S (init_linear self)) (length (model self) - 2)
    ∧ NoDup (filter (λ r, r ≠ activation self) (model self))
    ∧ length (filter (λ r, r = activation self) (model self)) = 2%nat.
Proof.
  intros Hv Hact. apply activation_module_lt in Hact.
  eexists _, _. split; [by apply init_run |].
  cbn [model init_linear activation].
  set (h1 := h0 ++ activation_objects activation_arg) in *.
  set (a := activation_ref activation_arg h0) in *.
  pose proof (built_model_others num_res_blocks a use_batchnorm
                use_preactivations (length h1) (width :: rest)
                ltac:(lia)) as Hothers.
  split_and!.
  - subst h1. rewrite length_app. lia.
  - done.
  - rewrite Hothers. apply NoDup_seq.
  - pose proof (filter_split_length
                  (built_model num_res_blocks a use_batchnorm
                     use_preactivations (length h1) (width :: rest)) a)
      as Hsplit.
    rewrite Hothers, length_seq, built_model_length in Hsplit.
    clear Hothers.
    set (m := (length (width :: rest) * S (Z.to_nat num_res_blocks))%nat) in *.
    clearbody m. destruct use_batchnorm; lia.
Qed.

Lemma children_are_fresh_objects_witness :
  ∃ self h,
    __init__ 8 [4; 8; 8] [16; 32] 2 (Some 0%nat) true true [Elementwise "tanh"]
      = OK (self, h)
    ∧ (1 ≤ init_linear self)%nat
    ∧ filter (λ r, r ≠ activation self) (model self)
      = seq (S (init_linear self)) (length (model self) - 2)
    ∧ NoDup (filter (λ r, r ≠ activation self) (model self))
    ∧ length (filter (λ r, r = activation self) (model self)) = 2%nat.
Proof.
  apply (children_are_fresh_objects 8 4 8 8 16 [32] 2 (Some 0%nat) true true
           [Elementwise "tanh"] (Elementwise "tanh")); reflexivity.
Defined.

(** ** An activation passed in by the caller *)

(** X5: when the caller passes an activation module, [self.activation] is
    the caller's object itself, not a copy: it is the child that follows
    each preprocessing convolution, and every stage has its
    [num_res_blocks] residual blocks, each built with that object. *)
Theorem passed_activation_shared latent_dim c hh w width rest
    num_res_blocks a use_batchnorm use_preactivations h0 act :
  valid_config latent_dim [c; hh; w] (width :: rest) = true →
  h0 !! a = Some act →
  is_activation act = true →
  ∃ self h,
    __init__ latent_dim [c; hh; w] (width :: rest) num_res_blocks (Some a)
      use_batchnorm use_preactivations h0 = OK (self, h)
    ∧ activation self = a
    ∧ h !! a = Some act
    ∧ (∃ conv1 norm1 conv2 norm2 others,
         model self = [conv1] ++ norm1 ++ [a] ++ [conv2] ++ norm2 ++ [a]
                        ++ others
         ∧ resolve h ([conv1] ++ norm1)
           = Some ([Conv2d c width 3 1 1] ++ normalisation use_batchnorm width)
         ∧ resolve h ([conv2] ++ norm2)
           = Some ([Conv2d width width 3 1 1]
                     ++ normalisation use_batchnorm width))
    ∧ (∀ r f a' b p,
         r ∈ model self → h !! r = Some (ResidualBlock f a' b p) → a' = a)
    ∧ resolve h (model self)
      = Some (preprocessing use_batchnorm c width act
                ++ body_objects num_res_blocks a use_batchnorm
                     use_preactivations width (width :: rest)
                ++ [Conv2d (default 0 (last (width :: rest))) latent_dim
                      (hh / 2 ^ Z.of_nat (length (width :: rest))) 1 0]).
Proof.
  intros Hv Ha Hkind.
  pose proof (init_run latent_dim c hh w width rest num_res_blocks (Some a)
                use_batchnorm use_preactivations h0 Hv) as Hrun.
  cbn zeta in Hrun. unfold activation_ref, activation_objects in Hrun.
  cbn [default from_option id] in Hrun. rewrite app_nil_r in Hrun.
  eexists _, _. split; [exact Hrun |]. cbn [activation model].
  split_and!.
  - done.
  - by apply lookup_app_l_Some.
  - unfold built_model, built_objects.
    change (default 0 (head (width :: rest))) with width.
    eexists _, _, _, _, _. split; [reflexivity |].
    unfold normalisation, resolve.
    destruct use_batchnorm; cbn [length seq app mapM];
      rewrite ?lookup_new; cbn [lookup list_lookup]; done.
  - intros r f a' b p Hr Hlook.
    pose proof (resolve_built latent_dim num_res_blocks a
                  use_batchnorm use_preactivations [c; hh; w] c width rest
                  (hh / 2 ^ Z.of_nat (length (width :: rest)))
                  h0 act Ha) as Hres.
    apply mapM_Some_1 in Hres.
    apply list_elem_of_lookup_1 in Hr as [i Hi].
    destruct (Forall2_lookup_l _ _ _ _ _ Hres Hi) as (l & Hl & Hlook').
    rewrite Hlook in Hlook'. injection Hlook' as <-.
    apply list_elem_of_lookup_2 in Hl.
    apply (pipeline_residual _ _ _ _ _ _ _ act _ _ _ _ _) in Hl; [done |].
    by destruct act.
  - exact (resolve_built latent_dim num_res_blocks a
             use_batchnorm use_preactivations [c; hh; w] c width rest
             (hh / 2 ^ Z.of_nat (length (width :: rest))) h0 act Ha).
Qed.

Lemma passed_activation_shared_witness :
  ∃ self h,
    __init__ 8 [4; 8; 8] [16; 32] 2 (Some 0%nat) false true
      [Elementwise "tanh"] = OK (self, h)
    ∧ activation self = 0%nat
    ∧ h !! 0%nat = Some (Elementwise "tanh")
    ∧ (∃ conv1 norm1 conv2 norm2 others,
         model self = [conv1] ++ norm1 ++ [0%nat] ++ [conv2] ++ norm2
                        ++ [0%nat] ++ others
         ∧ resolve h ([conv1] ++ norm1) = Some [Conv2d 4 16 3 1 1]
         ∧ resolve h ([conv2] ++ norm2) = Some [Conv2d 16 16 3 1 1])
    ∧ (∀ r f a' b p,
         r ∈ model self → h !! r = Some (ResidualBlock f a' b p) →
         a' = 0%nat)
    ∧ resolve h (model self)
      = Some ([Conv2d 4 16 3 1 1; Elementwise "tanh";
               Conv2d 16 16 3 1 1; Elementwise "tanh";
               Conv2d 16 16 2 2 0;
               ResidualBlock 16 0%nat false true;
               ResidualBlock 16 0%nat false true;
               Conv2d 16 32 2 2 0;
               ResidualBlock 32 0%nat false true;
               ResidualBlock 32 0%nat false true;
               Conv2d 32 8 2 1 0]).
Proof.
  apply (passed_activation_shared 8 4 8 8 16 [32] 2 0%nat false true
           [Elementwise "tanh"] (Elementwise "tanh")); reflexivity.
Defined.

(** ** The two remaining constructor arguments *)

Section Preactivation_flag.

Variable latent_dim' : Z.
Variable num_res_blocks' : Z.
Variable activation' : ref.
Variable use_batchnorm' : bool.

Lemma body_objects_with_preactivation pre pre' cin ls :
  with_preactivation pre'
    <$> body_objects num_res_blocks' activation' use_batchnorm' pre cin ls
  = body_objects num_res_blocks' activation' use_batchnorm' pre' cin ls.
Proof.
  revert cin. induction ls as [| width ls IH]; intros cin; [done |].
  cbn [body_objects]. rewrite fmap_app, IH. f_equal.
  unfold stage_objects. rewrite fmap_cons, fmap_replicate. done.
Qed.

Lemma pipeline_with_preactivation pre pre' cin ls act k :
  is_activation act = true →
  with_preactivation pre'
    <$> pipeline latent_dim' num_res_blocks' activation' use_batchnorm' pre
          cin ls act k
  = pipeline latent_dim' num_res_blocks' activation' use_batchnorm' pre'
      cin ls act k.
Proof.
  intros Hact. unfold pipeline.
  rewrite !fmap_app, body_objects_with_preactivation. f_equal.
  unfold preprocessing, normalisation. by destruct use_batchnorm', act.
Qed.

Lemma built_model_preactivation pre pre' p ls :
  built_model num_res_blocks' activation' use_batchnorm' pre p ls
  = built_model num_res_blocks' activation' use_batchnorm' pre' p ls.
Proof. unfold built_model. by rewrite !length_body_objects. Qed.

End Preactivation_flag.

(** X6: [use_preactivations] reaches the residual blocks and nothing else:
    two builds that differ only in this flag chain up the same addresses,
    and behind them the same modules except that every residual block
    carries the other flag. *)
Theorem preactivation_flag_effect latent_dim c hh w width rest
    num_res_blocks activation_arg use_batchnorm pre pre' h0 act :
  valid_config latent_dim [c; hh; w] (width :: rest) = true →
  activation_module activation_arg h0 = Some act →
  is_activation act = true →
  ∃ self1 h1 self2 h2 stages,
    __init__ latent_dim [c; hh; w] (width :: rest) num_res_blocks
      activation_arg use_batchnorm pre h0 = OK (self1, h1)
    ∧ __init__ latent_dim [c; hh; w] (width :: rest) num_res_blocks
        activation_arg use_batchnorm pre' h0 = OK (self2, h2)
    ∧ model self1 = model self2
    ∧ resolve h1 (model self1) = Some stages
    ∧ resolve h2 (model self2) = Some (with_preactivation pre' <$> stages).
Proof.
  intros Hv Hact Hkind. unfold activation_module in Hact.
  eexists _, _, _, _, _.
  split; [by apply init_run |]. split; [by apply init_run |].
  cbn [model]. split_and!.
  - apply built_model_preactivation.
  - by apply resolve_built.
  - rewrite (pipeline_with_preactivation _ _ _ _ pre pre') by done.
    by apply resolve_built.
Qed.

Lemma preactivation_flag_effect_witness :
  ∃ self1 h1 self2 h2 stages,
    __init__ 8 [4; 8; 8] [16] 1 None false true [] = OK (self1, h1)
    ∧ __init__ 8 [4; 8; 8] [16] 1 None false false [] = OK (self2, h2)
    ∧ model self1 = model self2
    ∧ resolve h1 (model self1) = Some stages
    ∧ resolve h2 (model self2) = Some (with_preactivation false <$> stages).
Proof.
  apply (preactivation_flag_effect 8 4 8 8 16 [] 1 None false true false []
           ReLU); reflexivity.
Defined.

Lemma body_objects_no_blocks nres a bn pre cin ls :
  nres <= 0 →
  body_objects nres a bn pre cin ls
  = zip_with (λ i o, Conv2d i o 2 2 0) (cin :: ls) ls.
Proof.
  intros Hn. revert cin. induction ls as [| width ls IH]; intros cin; [done |].
  cbn [body_objects zip_with]. unfold stage_objects.
  replace (Z.to_nat nres) with 0%nat by lia. cbn [replicate app].
  f_equal. apply IH.
Qed.

(** X7: [range(num_res_blocks)] is empty for a count of zero or below: the
    constructor then builds no residual block, silently, and each stage
    is its downsampling convolution alone. *)
Theorem nonpositive_res_blocks latent_dim c hh w width rest num_res_blocks
    activation_arg use_batchnorm use_preactivations h0 act :
  valid_config latent_dim [c; hh; w] (width :: rest) = true →
  activation_module activation_arg h0 = Some act →
  num_res_blocks <= 0 →
  ∃ self h,
    __init__ latent_dim [c; hh; w] (width :: rest) num_res_blocks
      activation_arg use_batchnorm use_preactivations h0 = OK (self, h)
    ∧ resolve h (model self)
      = Some (preprocessing use_batchnorm c width act
                ++ zip_with (λ i o, Conv2d i o 2 2 0)
                     (width :: width :: rest) (width :: rest)
                ++ [Conv2d (default 0 (last (width :: rest))) latent_dim
                      (hh / 2 ^ Z.of_nat (length (width :: rest))) 1 0]).
Proof.
  intros Hv Hact Hn.
  destruct (init_pipeline _ _ _ _ _ _ num_res_blocks activation_arg
              use_batchnorm use_preactivations h0 act Hv Hact)
    as (self & h & Hinit & _ & _ & _ & Hres).
  exists self, h. split; [done |]. rewrite Hres. unfold pipeline.
  by rewrite body_objects_no_blocks.
Qed.

Lemma nonpositive_res_blocks_witness :
  ∃ self h,
    __init__ 8 [4; 8; 8] [16; 32] (-3) None false true [] = OK (self, h)
    ∧ resolve h (model self)
      = Some [Conv2d 4 16 3 1 1; ReLU; Conv2d 16 16 3 1 1; ReLU;
              Conv2d 16 16 2 2 0; Conv2d 16 32 2 2 0; Conv2d 32 8 2 1 0].
Proof.
  apply (nonpositive_res_blocks 8 4 8 8 16 [32] (-3) None false true []
           ReLU); [reflexivity | reflexivity | lia].
Defined.

(** ** Shapes through a built decoder *)

Lemma view_rows_eq out c :
  0 < c →
  view out [c; -1]
  = if numel out `mod` c =? 0 then OK [c; numel out / c]
    else Raise RuntimeError.
Proof.
  intros Hc. unfold view.
  assert (existsb (λ d, d <? -1) [c; -1] = false) as ->.
  { cbn [existsb]. by destruct (Z.ltb_spec c (-1)); [lia |]. }
  rewrite filter_cons_True by lia. rewrite filter_cons_False by (cbn; lia).
  rewrite filter_nil. cbn [length Nat.sub].
  change (numel [c]) with (c * 1). rewrite Z.mul_1_r.
  destruct (Z.eqb_spec c 0); [lia |].
  destruct (numel out `mod` c =? 0); [| done].
  cbn [orb negb fmap list_fmap].
  destruct (Z.eqb_spec c (-1)); [lia | done].
Qed.

Lemma built_linear_lookup latent_dim nres a bn pre c hh w cin ls k
    (h : store) :
  - 2 ^ 63 <= c * hh * w < 2 ^ 63 →
  (h ++ built_objects latent_dim nres a bn pre [c; hh; w] cin ls k)
    !! length h
  = Some (Linear latent_dim (c * hh * w) true).
Proof.
  intros Hr. unfold built_objects. cbn [app].
  rewrite <- (np_prod_3 c hh w Hr). by apply list_lookup_middle.
Qed.

(** X8: the assembled [nn.Sequential], called on a batch of [n] images of
    the configured size, returns [n] items with [latent_dim] channels and
    height 1, with either setting of [use_batchnorm], whether or not the
    height is a multiple of [2 ^ len(layers)]: each stage halves the
    extents rounding down and the final kernel is the rounded-down height.
    The width left over is [w / 2^len - hh / 2^len + 1], which is 1 for a
    square image.  With [use_batchnorm] on, the batch is taken large
    enough for the last stage to see more than one value per channel, as
    a normalisation inside a residual block would want in training
    mode. *)
Theorem model_batched_shape latent_dim c hh w width rest num_res_blocks
    activation_arg use_batchnorm use_preactivations h0 act n :
  valid_config latent_dim [c; hh; w] (width :: rest) = true →
  activation_module activation_arg h0 = Some act →
  is_activation act = true →
  2 ^ Z.of_nat (length (width :: rest)) <= hh → hh <= w →
  0 < n →
  (use_batchnorm = true →
   1 < n * (hh / 2 ^ Z.of_nat (length (width :: rest)))
         * (w / 2 ^ Z.of_nat (length (width :: rest)))) →
  ∃ self h,
    __init__ latent_dim [c; hh; w] (width :: rest) num_res_blocks
      activation_arg use_batchnorm use_preactivations h0 = OK (self, h)
    ∧ sequential h (model self) [n; c; hh; w]
      = OK [n; latent_dim; 1;
            w / 2 ^ Z.of_nat (length (width :: rest))
            - hh / 2 ^ Z.of_nat (length (width :: rest)) + 1].
Proof.
  intros Hv Hact Hkind Hh Hhw Hn _.
  destruct (init_pipeline _ _ _ _ _ _ num_res_blocks activation_arg
              use_batchnorm use_preactivations h0 act Hv Hact)
    as (self & h & Hinit & _ & _ & _ & Hres).
  exists self, h. split; [done |].
  rewrite (sequential_through _ _ _ _ Hres).
  apply valid_config_inv in Hv as (Hl & _ & _ & _ & _ & Hls).
  apply (through_pipeline _ _ _ _ _ [n]); [done | done | lia | | done.. |].
  { eapply Forall_impl; [exact Hls |]. intros l Hlb. cbv beta in Hlb. lia. }
  intros _. exists n. split; [done |].
  assert (2 <= 2 ^ Z.of_nat (length (width :: rest))).
  { cbn [length]. rewrite Nat2Z.inj_succ, Z.pow_succ_r by lia.
    assert (0 < 2 ^ Z.of_nat (length rest)) by (apply Z.pow_pos_nonneg; lia).
    lia. }
  assert (4 <= hh * w) by nia.
  assert (hh * w <= n * (hh * w)) by nia.
  rewrite <- Z.mul_assoc. lia.
Qed.

Lemma model_batched_shape_witness :
  ∃ self h,
    __init__ 8 [4; 8; 8] [16; 32] 2 None true true [] = OK (self, h)
    ∧ sequential h (model self) [5; 4; 8; 8] = OK [5; 8; 1; 8 / 4 - 8 / 4 + 1].
Proof.
  apply (model_batched_shape 8 4 8 8 16 [32] 2 None true true [] ReLU 5);
    [reflexivity | reflexivity | reflexivity | cbn; lia | lia | lia
    | intros _; vm_compute; reflexivity].
Defined.

(** X9: with [use_batchnorm] off, [forward] on one latent vector runs the
    whole pipeline on the unbatched image and then views the
    [latent_dim * cols] values it gets in [init_shape[0]] rows: it returns
    shape [(channels, latent_dim * cols / channels)] when [channels]
    divides that count and raises otherwise ([cols] is 1 for a square
    image). *)
Theorem forward_without_batchnorm latent_dim c hh w width rest
    num_res_blocks activation_arg use_preactivations h0 act :
  valid_config latent_dim [c; hh; w] (width :: rest) = true →
  activation_module activation_arg h0 = Some act →
  is_activation act = true →
  2 ^ Z.of_nat (length (width :: rest)) <= hh → hh <= w →
  let cols := w / 2 ^ Z.of_nat (length (width :: rest))
              - hh / 2 ^ Z.of_nat (length (width :: rest)) + 1 in
  build_and_run latent_dim [c; hh; w] (width :: rest) num_res_blocks
    activation_arg false use_preactivations h0 [1; latent_dim]
  = if (latent_dim * cols) `mod` c =? 0
    then OK [c; latent_dim * cols / c]
    else Raise RuntimeError.
Proof.
  intros Hv Hact Hkind Hh Hhw cols. unfold build_and_run.
  rewrite (init_run _ _ _ _ _ _ _ _ _ _ _ Hv).
  cbn [mbind result_bind]. unfold forward. cbn [init_linear model init_shape].
  unfold activation_module in Hact.
  pose proof (resolve_built latent_dim num_res_blocks
                (activation_ref activation_arg h0) false use_preactivations
                [c; hh; w] c width rest
                (hh / 2 ^ Z.of_nat (length (width :: rest)))
                _ act Hact) as Hres.
  apply valid_config_inv in Hv as (Hl & Hc & Hhh & Hw & Hp & Hls).
  assert (Forall (λ l, 0 < l) (width :: rest)) as Hpos.
  { eapply Forall_impl; [exact Hls |]. intros l Hlb. cbv beta in Hlb. lia. }
  unfold call. rewrite built_linear_lookup by nia.
  cbn [layer_forward]. unfold linear_forward. cbn [last removelast app].
  rewrite Z.eqb_refl. cbn [mbind result_bind].
  rewrite view_triple by lia.
  change (numel [1; c * hh * w]) with (1 * (c * hh * w * 1)).
  destruct (Z.eqb_spec (1 * (c * hh * w * 1)) (c * hh * w)); [| lia].
  cbn [mbind result_bind].
  rewrite (sequential_through _ _ _ _ Hres).
  rewrite (through_pipeline _ _ _ _ _ [] c width rest act hh w)
    by (done || lia || (cbn; lia)).
  cbn [app mbind result_bind len]. fold cols.
  rewrite view_rows_eq by done.
  change (numel [latent_dim; 1; cols]) with (latent_dim * (1 * (cols * 1))).
  by replace (latent_dim * (1 * (cols * 1))) with (latent_dim * cols) by lia.
Qed.

Lemma forward_without_batchnorm_witness :
  build_and_run 8 [4; 7; 7] [16] 2 None false true [] [1; 8]
  = if (8 * (7 / 2 - 7 / 2 + 1)) `mod` 4 =? 0
    then OK [4; 8 * (7 / 2 - 7 / 2 + 1) / 4]
    else Raise RuntimeError.
Proof.
  apply (forward_without_batchnorm 8 4 7 7 16 [] 2 None true [] ReLU);
    [reflexivity | reflexivity | reflexivity | cbn; lia | lia].
Defined.

(** X10: [forward] takes no batch: for every batch size other than 1 the view
    onto [init_shape] raises, before any stage runs, with either setting
    of [use_batchnorm]. *)
Theorem forward_rejects_batches latent_dim c hh w width rest num_res_blocks
    activation_arg use_batchnorm use_preactivations h0 b :
  valid_config latent_dim [c; hh; w] (width :: rest) = true →
  b ≠ 1 →
  build_and_run latent_dim [c; hh; w] (width :: rest) num_res_blocks
    activation_arg use_batchnorm use_preactivations h0 [b; latent_dim]
  = Raise RuntimeError.
Proof.
  intros Hv Hb. unfold build_and_run.
  rewrite (init_run _ _ _ _ _ _ _ _ _ _ _ Hv).
  cbn [mbind result_bind]. unfold forward. cbn [init_linear model init_shape].
  apply valid_config_inv in Hv as (Hl & Hc & Hhh & Hw & Hp & _).
  unfold call. rewrite built_linear_lookup by nia.
  cbn [layer_forward]. unfold linear_forward. cbn [last removelast app].
  rewrite Z.eqb_refl. cbn [mbind result_bind].
  rewrite view_triple by lia.
  change (numel [b; c * hh * w]) with (b * (c * hh * w * 1)).
  destruct (Z.eqb_spec (b * (c * hh * w * 1)) (c * hh * w)); [| done].
  exfalso. assert (0 < c * hh * w) by nia. nia.
Qed.

Lemma forward_rejects_batches_witness :
  build_and_run 8 [4; 8; 8] [16; 32] 2 None false true [] [2; 8]
  = Raise RuntimeError.
Proof.
  apply (forward_rejects_batches 8 4 8 8 16 [32] 2 None false true [] 2);
    [reflexivity | lia].
Defined.

Lemma forward_with_batchnorm_raises_witness :
  ∃ e, build_and_run 8 [4; 8; 8] [16; 32] 2 None true true [] [1; 8]
       = Raise e.
Proof.
  apply (forward_with_batchnorm_raises 8 4 8 8 16 [32] 2 None true [] [1; 8]).
  reflexivity.
Defined.

Lemma forward_rows_witness : ∃ m, [4; 2] = [4; m].
Proof.
  apply (forward_rows 8 4 8 8 16 [32] 2 None false true [] [1; 8] [4; 2]);
    reflexivity.
Defined.
